(** * AgentSearchFlight: the flight search tool of [src/crew.py]

    A shallow embedding of the helpers [_to_iso], [_get_rate],
    [_amadeus_token], [_search_leg] and of [FlightSearchTool._run], with the
    properties of the offer aggregation and ranking routine.

    Conventions of the embedding.
    - A Python [float] is an IEEE 754 binary64 number: [spec_float] of the
      Standard Library at precision 53 and maximal exponent 1024. Products
      are [SFmul]; [float(str)] and [round(x, 2)] are the correctly rounded
      conversions of CPython.
    - A [dict] is a [gmap]; the [rates] cache is a [gmap string float].
    - Every network call goes through [requests.get] / [requests.post]; the
      outside world is a deterministic transition function on an abstract
      world state, and every request that is sent is appended to a log.
      [requests] raises when it gets no response (connection error,
      timeout); it does not raise on the status code of a response.
    - A Python exception is the [Raise] result of the [Py] monad; the state
      reached when it was raised is kept, so that what was sent before the
      failure can be inspected.
    - The JSON payloads are typed after the fields the code reads. The body
      of a response is either not JSON or a JSON object. An offer is a
      record with the members [price], [itineraries] and
      [numberOfBookableSeats]; [itineraries] and [segments] are lists, and
      subscripting an empty one with [0] raises [IndexError]; the total of
      an offer is a string, as the provider sends it, and [float] parses it.
      What a payload without one of these members, or with a member of
      another type, makes the code raise is outside the embedding: the
      statements say what completed invocations return and what is sent,
      not which payloads complete.
    - [print] is left out, and [_run] returns the [result] dict that
      [json.dumps] serialises. *)

From Stdlib Require Import ZArith Bool Ascii String List Lia.
From Stdlib Require Import Floats.SpecFloat.
From stdpp Require Import base option list gmap strings sorting.

Open Scope Z_scope.

(** ** Python floats *)

Module PyFloat.

Definition prec : Z := 53.
Definition emax : Z := 1024.

Definition float := spec_float.

Definition is_nan (x : float) : bool :=
  match x with S754_nan => true | _ => false end.

Definition is_finite (x : float) : bool :=
  match x with S754_zero _ | S754_finite _ _ _ => true | _ => false end.

(** [x * y], [x < y], [x <= y], [x == y] on floats. *)
Definition mul (x y : float) : float := SFmul prec emax x y.
Definition ltb (x y : float) : bool := SFltb x y.
Definition leb (x y : float) : bool := SFleb x y.
Definition eqb (x y : float) : bool := SFeqb x y.

(** The binary64 number nearest to the fraction [p / q] with sign [s]
    (ties to even): the correctly rounded quotient of the two integers.
    This is what the decimal-to-binary conversion of CPython ([strtod])
    returns for a decimal numeral read as a fraction. *)
Definition of_ratio (s : bool) (p : Z) (q : positive) : float :=
  match p with
  | Zpos p' => SFdiv prec emax (S754_finite s p' 0) (S754_finite false q 0)
  | _ => S754_zero s
  end.

Definition of_Z (z : Z) : float := of_ratio (z <? 0) (Z.abs z) 1.

(** [mant * 10 ^ e10] with sign [s]. *)
Definition of_decimal (s : bool) (mant : Z) (e10 : Z) : float :=
  match e10 with
  | Zneg k => of_ratio s mant (Pos.pow 10 k)
  | _ => of_ratio s (mant * 10 ^ e10) 1
  end.

(** Nearest integer to [a / b], ties to even, for [0 <= a]. *)
Definition div_half_even (a : Z) (b : positive) : Z :=
  let q := a / Zpos b in
  let r := a mod Zpos b in
  match (2 * r ?= Zpos b) with
  | Lt => q
  | Gt => q + 1
  | Eq => if Z.even q then q else q + 1
  end.

(** [round(x, 2)]: NaN and the infinities round to themselves; a finite
    [x] is rounded, from its exact value, to the nearest multiple of 1/100
    (ties to even), and the two-decimal numeral is read back as a float.
    The sign of [x] is kept, also on a zero result. *)
Definition round2 (x : float) : float :=
  match x with
  | S754_finite s m (Zneg k) =>
      of_ratio s (div_half_even (Zpos m * 100) (Pos.pow 2 k)) 100
  | _ => x
  end.

(** Zero, a positive number or plus infinity: the floats [x] with
    [0 <= x]. *)
Definition sign_ok (x : float) : Prop :=
  match x with
  | S754_nan => False
  | S754_zero _ => True
  | S754_infinity s | S754_finite s _ _ => s = false
  end.

End PyFloat.

(** ** [float(s)] for a string [s]

    The grammar CPython accepts: surrounding whitespace is stripped;
    underscores may separate digits; then an optional sign followed by
    [inf], [infinity] or [nan] in any letter case, or by a decimal numeral
    with an optional fraction and an optional exponent. Anything else
    raises [ValueError] ([None] here). Characters are code points below
    256, so the only digits are the ASCII ones. *)

Module FloatOfStr.
Import PyFloat.

Definition is_space (c : ascii) : bool :=
  let n := Z.of_nat (nat_of_ascii c) in
  ((9 <=? n) && (n <=? 13)) || (n =? 32) || (n =? 133) || (n =? 160).

Definition is_digit (c : ascii) : bool :=
  let n := Z.of_nat (nat_of_ascii c) in (48 <=? n) && (n <=? 57).

Definition digit_val (c : ascii) : Z := Z.of_nat (nat_of_ascii c) - 48.

Definition lower (c : ascii) : ascii :=
  let n := nat_of_ascii c in
  if ((65 <=? Z.of_nat n) && (Z.of_nat n <=? 90))%Z
  then ascii_of_nat (n + 32) else c.

Fixpoint lstrip (l : list ascii) : list ascii :=
  match l with
  | c :: l' => if is_space c then lstrip l' else l
  | [] => []
  end.

Definition strip (l : list ascii) : list ascii :=
  rev (lstrip (rev (lstrip l))).

(** Removal of the underscores; each must stand between two digits.
    [prev] is the character before [l], if any. *)
Fixpoint drop_underscores (prev : option ascii) (l : list ascii)
  : option (list ascii) :=
  match l with
  | [] =>
      match prev with
      | Some "_"%char => None
      | _ => Some []
      end
  | c :: l' =>
      if Ascii.eqb c "_" then
        match prev with
        | Some p => if is_digit p then drop_underscores (Some c) l' else None
        | None => None
        end
      else
        match prev with
        | Some "_"%char =>
            if is_digit c
            then option_map (cons c) (drop_underscores (Some c) l')
            else None
        | _ => option_map (cons c) (drop_underscores (Some c) l')
        end
  end.

(** The longest prefix of digits, as (value, number of digits, rest). *)
Fixpoint digits (acc : Z) (n : Z) (l : list ascii) : Z * Z * list ascii :=
  match l with
  | c :: l' =>
      if is_digit c then digits (10 * acc + digit_val c) (n + 1) l'
      else (acc, n, l)
  | [] => (acc, n, [])
  end.

Definition sign (l : list ascii) : bool * list ascii :=
  match l with
  | "-"%char :: l' => (true, l')
  | "+"%char :: l' => (false, l')
  | _ => (false, l)
  end.

(** The exponent part: empty, or [e] / [E], an optional sign and at least
    one digit, up to the end of the text. *)
Definition exponent (l : list ascii) : option Z :=
  match l with
  | [] => Some 0
  | c :: l' =>
      if Ascii.eqb (lower c) "e" then
        let '(neg, l'') := sign l' in
        match digits 0 0 l'' with
        | (v, n, []) =>
            if 0 <? n then Some (if neg then - v else v) else None
        | _ => None
        end
      else None
  end.

Definition numeral (s : bool) (l : list ascii) : option float :=
  let '(ip, ni, l1) := digits 0 0 l in
  let '(fp, nf, l2) :=
    match l1 with
    | "."%char :: l1' => digits ip 0 l1'
    | _ => (ip, 0, l1)
    end in
  if 0 <? ni + nf then
    match exponent l2 with
    | Some e => Some (of_decimal s fp (e - nf))
    | None => None
    end
  else None.

Definition inf_or_nan (s : bool) (l : list ascii) : option float :=
  let w := string_of_list_ascii (map lower l) in
  if String.eqb w "inf" || String.eqb w "infinity" then Some (S754_infinity s)
  else if String.eqb w "nan" then Some S754_nan
  else None.

Definition float_of_str (str : string) : option float :=
  match drop_underscores None (strip (list_ascii_of_string str)) with
  | Some l =>
      let '(s, l') := sign l in
      match numeral s l' with
      | Some x => Some x
      | None => inf_or_nan s l'
      end
  | None => None
  end.

End FloatOfStr.

(** ** [list.sort(key=...)]

    CPython's sort is stable and compares keys with [<] only. It is
    modelled by the stable insertion sort below; on keys that [<] orders
    totally (floats other than NaN) every stable sort returns the same
    list, see [PySortFacts.stable_sort_unique]. With a NaN among the keys
    the comparisons are not those of an order, and the list that CPython
    returns can be another permutation than the one below: of a leg with
    a NaN price the theorems about every invocation use only that it is a
    permutation of its elements, see [ranked]. *)

Module PySort.
Section Sort.
Context {A K : Type} (key : A -> K) (lt : K -> K -> bool).

Fixpoint insert (x : A) (l : list A) : list A :=
  match l with
  | [] => [x]
  | y :: l' => if lt (key y) (key x) then y :: insert x l' else x :: l
  end.

Fixpoint sort (l : list A) : list A :=
  match l with
  | [] => []
  | x :: l' => insert x (sort l')
  end.

(** The order and the equality of the keys, on the elements. *)
Definition le_by (le : K -> K -> bool) (x y : A) : Prop :=
  le (key x) (key y) = true.

Definition eq_by (eq : K -> K -> bool) (k : K) (x : A) : bool :=
  eq k (key x).
End Sort.
End PySort.

(** ** [datetime.strptime(s, "%d/%m/%Y").strftime("%Y-%m-%d")] *)

Module PyDate.

Definition char_class := ascii -> bool.

Definition one_of (cs : string) : char_class :=
  fun c => existsb (Ascii.eqb c) (list_ascii_of_string cs).

Definition digit : char_class := one_of "0123456789".
Definition digit19 : char_class := one_of "123456789".

(** The alternatives of the regular expressions that [_strptime] compiles
    the directives to, in their order:
    [%d] is [3[0-1]|[1-2]\d|0[1-9]|[1-9]| [1-9]],
    [%m] is [1[0-2]|0[1-9]|[1-9]] and [%Y] is [\d\d\d\d]. *)
Definition re_d : list (list char_class) :=
  [ [one_of "3"; one_of "01"]; [one_of "12"; digit]; [one_of "0"; digit19];
    [digit19]; [one_of " "; digit19] ].
Definition re_m : list (list char_class) :=
  [ [one_of "1"; one_of "012"]; [one_of "0"; digit19]; [digit19] ].
Definition re_Y : list (list char_class) :=
  [ [digit; digit; digit; digit] ].

(** Match a sequence of character classes at the head of [l]:
    the matched text and the rest. *)
Fixpoint match_seq (p : list char_class) (l : list ascii)
  : option (list ascii * list ascii) :=
  match p with
  | [] => Some ([], l)
  | cl :: p' =>
      match l with
      | c :: l' =>
          if cl c then
            match match_seq p' l' with
            | Some (m, r) => Some (c :: m, r)
            | None => None
            end
          else None
      | [] => None
      end
  end.

(** Ordered alternation with backtracking: the first alternative that
    matches and after which the continuation [k] matches too. *)
Fixpoint match_alt {R : Type} (alts : list (list char_class)) (l : list ascii)
    (k : list ascii -> list ascii -> option R) : option R :=
  match alts with
  | [] => None
  | p :: alts' =>
      match match_seq p l with
      | Some (m, r) =>
          match k m r with
          | Some res => Some res
          | None => match_alt alts' l k
          end
      | None => match_alt alts' l k
      end
  end.

Definition match_lit {R : Type} (c : ascii) (l : list ascii)
    (k : list ascii -> option R) : option R :=
  match l with
  | c' :: l' => if Ascii.eqb c c' then k l' else None
  | [] => None
  end.

(** [int(text)] for a text of digits with an optional leading blank. *)
Definition int_of (m : list ascii) : Z :=
  fold_left
    (fun acc c => if digit c then 10 * acc + (Z.of_nat (nat_of_ascii c) - 48) else acc)
    m 0.

(** The match of [%d/%m/%Y] at the start of the text: the three groups
    and the unconverted remainder. *)
Definition format_regex_match (l : list ascii)
  : option (list ascii * list ascii * list ascii * list ascii) :=
  match_alt re_d l (fun d l1 =>
  match_lit "/" l1 (fun l2 =>
  match_alt re_m l2 (fun m l3 =>
  match_lit "/" l3 (fun l4 =>
  match_alt re_Y l4 (fun y rest => Some (d, m, y, rest)))))).

Definition is_leap (y : Z) : bool :=
  (y mod 4 =? 0) && (negb (y mod 100 =? 0) || (y mod 400 =? 0)).

Definition days_in_month (y m : Z) : Z :=
  if m =? 2 then (if is_leap y then 29 else 28)
  else if (m =? 4) || (m =? 6) || (m =? 9) || (m =? 11) then 30
  else 31.

(** The check of the [date] constructor: [ValueError] outside these. *)
Definition valid_date (y m d : Z) : bool :=
  (1 <=? y) && (y <=? 9999) && (1 <=? m) && (m <=? 12)
  && (1 <=? d) && (d <=? days_in_month y m).

Record date := mkDate { year : Z; month : Z; day : Z }.

(** [strptime]: [None] stands for [ValueError] (no match, unconverted
    data remains, or a day that the month does not have). *)
Definition strptime (s : string) : option date :=
  match format_regex_match (list_ascii_of_string s) with
  | Some (d, m, y, []) =>
      let dt := mkDate (int_of y) (int_of m) (int_of d) in
      if valid_date (year dt) (month dt) (day dt) then Some dt else None
  | _ => None
  end.

Definition digit_char (d : Z) : ascii := ascii_of_nat (Z.to_nat (48 + d)).

(** The decimal numeral of [n >= 0], written from its last digit. *)
Fixpoint decimal_from (fuel : nat) (n : Z) (acc : string) : string :=
  let acc' := String (digit_char (n mod 10)) acc in
  match fuel with
  | O => acc'
  | S fuel' => if n <? 10 then acc' else decimal_from fuel' (n / 10) acc'
  end.

Definition decimal (n : Z) : string := decimal_from (Z.to_nat n) n "".

Fixpoint zeros (n : nat) : string :=
  match n with O => EmptyString | S n' => String "0" (zeros n') end.

Definition zero_pad (width : nat) (n : Z) : string :=
  let s := decimal n in
  (zeros (width - String.length s) ++ s)%string.

(** [strftime("%Y-%m-%d")]. [%m] and [%d] are two digits. [%Y] is the C
    library's: glibc prints the year without padding, the other platforms
    pad it to four digits; [pad_year] says which. From year 1000 on the
    two agree. *)
Definition strftime (pad_year : bool) (dt : date) : string :=
  ((if pad_year then zero_pad 4 (year dt) else decimal (year dt))
   ++ "-" ++ zero_pad 2 (month dt) ++ "-" ++ zero_pad 2 (day dt))%string.

(** Texts of exactly two, and of exactly four, decimal digits. *)
Definition two_digits (s : string) : bool :=
  match list_ascii_of_string s with
  | [a; b] => digit a && digit b
  | _ => false
  end.

Definition four_digits (s : string) : bool :=
  match list_ascii_of_string s with
  | [a; b; c; d] => digit a && digit b && digit c && digit d
  | _ => false
  end.

End PyDate.

(** ** Data: requests, responses, offers *)

Abbreviation float := PyFloat.float.

Inductive exn :=
  | RequestException      (* [requests] could not get a response *)
  | JSONDecodeError       (* [r.json()]: the body is not JSON *)
  | KeyError (k : string) (* a missing dict member *)
  | IndexError            (* [l[0]] on an empty list *)
  | ValueError.           (* [float(s)], [strptime] *)

Inductive http_method := GET | POST.

(** A value of a query or form field. *)
Inductive field :=
  | FStr (s : string)
  | FInt (z : Z)
  | FNone.

Record Request := mkRequest {
  req_method : http_method;
  req_url : string;
  req_params : list (string * field);
  req_data : list (string * field);
  req_headers : list (string * string);
  req_timeout : Z
}.

(** A response: its status code and its body as [r.json()] decodes it,
    [None] when the body is not JSON, else the members of the JSON object,
    of the type [T] that the caller reads. *)
Record Response (T : Type) := mkResponse {
  status_code : Z;
  json : option (gmap string T)
}.
Arguments mkResponse {T} _ _.
Arguments status_code {T} _.
Arguments json {T} _.

Record Endpoint := mkEndpoint { at_ : string }.

Record Segment := mkSegment {
  carrierCode : string;
  departure : Endpoint;
  arrival : Endpoint;
  numberOfStops : Z
}.

Record Itinerary := mkItinerary { segments : list Segment }.

Record Price := mkPrice { currency : string; grandTotal : string }.

Record RawOffer := mkRawOffer {
  price : Price;
  itineraries : list Itinerary;
  numberOfBookableSeats : Z
}.

(** An element of the result arrays. *)
Record NormalizedOffer := mkNormalizedOffer {
  company : string;
  departure_time : string;
  arrival_time : string;
  stops : Z;
  seats_remaining : Z;
  price_brl : float
}.

(** The outside world: the process environment, the platform's [%Y], and
    the three services, each a transition on the world state [W] that
    answers a request with a response or with no response at all. *)
Class World := {
  W : Type;
  getenv : string -> option string;
  pad_year : bool;
  token_service : Request -> W -> option (Response string) * W;
  offer_service : Request -> W -> option (Response (list RawOffer)) * W;
  rate_service : Request -> W -> option (Response (gmap string float)) * W
}.

(** ** The monad of the program: state and exceptions *)

Inductive result (A : Type) :=
  | Ok (a : A)
  | Raise (e : exn).
Arguments Ok {A} _.
Arguments Raise {A} _.

Section Program.
Context `{Wd : World}.

(** The state: the world, and the requests sent so far, oldest first. *)
Record state := mkState { world : W; sent : list Request }.

Definition Py (A : Type) : Type := state -> result A * state.

Definition ret {A} (a : A) : Py A := fun s => (Ok a, s).
Definition raise {A} (e : exn) : Py A := fun s => (Raise e, s).
Definition bind {A B} (m : Py A) (f : A -> Py B) : Py B :=
  fun s =>
    match m s with
    | (Ok a, s') => f a s'
    | (Raise e, s') => (Raise e, s')
    end.

Notation "x <- m ;; k" := (bind m (fun x => k))
  (at level 100, m at next level, right associativity).

Definition of_option {A} (e : exn) (o : option A) : Py A :=
  match o with Some a => ret a | None => raise e end.

(** [for x in xs: acc = body(acc, x)] *)
Fixpoint for_each {A S} (xs : list A) (body : S -> A -> Py S) (acc : S) : Py S :=
  match xs with
  | [] => ret acc
  | x :: xs' => acc' <- body acc x ;; for_each xs' body acc'
  end.

(** [requests.get] / [requests.post] against one of the services. *)
Definition send {T} (service : Request -> W -> option (Response T) * W)
    (rq : Request) : Py (Response T) :=
  fun s =>
    let '(answer, w') := service rq (world s) in
    let s' := mkState w' (sent s ++ [rq]) in
    match answer with
    | Some r => (Ok r, s')
    | None => (Raise RequestException, s')
    end.

(** [r.json()] *)
Definition json_of {T} (r : Response T) : Py (gmap string T) :=
  of_option JSONDecodeError (json r).

(** [d[k]] *)
Definition subscript {T} (d : gmap string T) (k : string) : Py T :=
  of_option (KeyError k) (d !! k).

(** [l[0]] *)
Definition first {T} (l : list T) : Py T :=
  of_option IndexError (head l).

Definition env_field (name : string) : field :=
  match getenv name with Some v => FStr v | None => FNone end.

(** ** The helpers of [crew.py] *)

Definition companies : gmap string string :=
  {[ "LA" := "LATAM"; "G3" := "GOL"; "AD" := "Azul"; "2Z" := "Voepass" ]}.

Definition _to_iso (date_br : string) : Py string :=
  dt <- of_option ValueError (PyDate.strptime date_br) ;;
  ret (PyDate.strftime pad_year dt).

Definition rate_request (cur : string) : Request :=
  mkRequest GET "https://api.exchangeratesapi.io/v1/latest"
    [ ("access_key", env_field "EXR_API_KEY");
      ("base", FStr cur);
      ("symbols", FStr "BRL") ]
    [] [] 10.

Definition _get_rate (cur : string) : Py float :=
  r <- send rate_service (rate_request cur) ;;
  body <- json_of r ;;
  rates <- subscript body "rates" ;;
  subscript rates "BRL".

Definition token_request : Request :=
  mkRequest POST "https://test.api.amadeus.com/v1/security/oauth2/token"
    []
    [ ("grant_type", FStr "client_credentials");
      ("client_id", env_field "AMADEUS_CLIENT_ID");
      ("client_secret", env_field "AMADEUS_CLIENT_CRED") ]
    [] 10.

Definition _amadeus_token : Py string :=
  r <- send token_service token_request ;;
  body <- json_of r ;;
  subscript body "access_token".

Definition search_request (token origin dest date : string) : Request :=
  mkRequest GET "https://test.api.amadeus.com/v2/shopping/flight-offers"
    [ ("originLocationCode", FStr origin);
      ("destinationLocationCode", FStr dest);
      ("departureDate", FStr date);
      ("adults", FInt 1);
      ("max", FInt 20) ]
    []
    [ ("Authorization", ("Bearer " ++ token)%string) ]
    15.

Definition _search_leg (token origin dest date : string) : Py (list RawOffer) :=
  r <- send offer_service (search_request token origin dest date) ;;
  body <- json_of r ;;
  subscript body "data".

(** ** [FlightSearchTool._run] *)

(** [float(s)] *)
Definition py_float (s : string) : Py float :=
  of_option ValueError (FloatOfStr.float_of_str s).

(** The variables of the loops: the [rates] cache and the [result] dict. *)
Definition loop_vars : Type :=
  gmap string float * gmap string (list NormalizedOffer).

(** The body of the inner loop, for one offer [o] of the leg [leg_name]. *)
Definition offer_body (leg_name : string) (v : loop_vars) (o : RawOffer)
  : Py loop_vars :=
  let '(rates, result) := v in
  let cur := currency (price o) in
  rates <- match rates !! cur with
           | None => rate <- _get_rate cur ;; ret (<[cur := rate]> rates)
           | Some _ => ret rates
           end ;;
  itinerary <- first (itineraries o) ;;
  seg <- first (segments itinerary) ;;
  leg <- subscript result leg_name ;;
  total <- py_float (grandTotal (price o)) ;;
  rate <- subscript rates cur ;;
  let item :=
    {| company := default (carrierCode seg) (companies !! carrierCode seg);
       departure_time := at_ (departure seg);
       arrival_time := at_ (arrival seg);
       stops := numberOfStops seg;
       seats_remaining := numberOfBookableSeats o;
       price_brl := PyFloat.round2 (PyFloat.mul total rate) |} in
  ret (rates, <[leg_name := leg ++ [item]]> result).

(** [result[leg_name].sort(key=lambda v: v["price_brl"])] *)
Definition sort_leg (leg_name : string) (v : loop_vars) : Py loop_vars :=
  let '(rates, result) := v in
  leg <- subscript result leg_name ;;
  ret (rates, <[leg_name := PySort.sort price_brl PyFloat.ltb leg]> result).

(** The body of the outer loop, for one item of [legs.items()]. *)
Definition leg_body (v : loop_vars) (item : string * list RawOffer)
  : Py loop_vars :=
  let '(leg_name, offers) := item in
  v' <- for_each offers (offer_body leg_name) v ;;
  sort_leg leg_name v'.

(** The two loops, from [rates, result = {}, {"outbound": [], "return": []}]. *)
Definition normalize_and_rank (legs : list (string * list RawOffer))
  : Py loop_vars :=
  for_each legs leg_body
    (∅, {[ "outbound" := []; "return" := [] ]}).

(** The token and the [legs] dict: its two values are computed in the
    order of the dict display, each date being converted just before its
    leg is fetched. [legs.items()] lists outbound first. *)
Definition fetch_legs (origin destination departure_date return_date : string)
  : Py (list (string * list RawOffer)) :=
  token <- _amadeus_token ;;
  date_out <- _to_iso departure_date ;;
  outbound <- _search_leg token origin destination date_out ;;
  date_ret <- _to_iso return_date ;;
  inbound <- _search_leg token destination origin date_ret ;;
  ret [("outbound", outbound); ("return", inbound)].

(** The value returned is the [result] dict, which [json.dumps] prints. *)
Definition _run (origin destination departure_date return_date : string)
  : Py (gmap string (list NormalizedOffer)) :=
  legs <- fetch_legs origin destination departure_date return_date ;;
  v <- normalize_and_rank legs ;;
  ret (snd v).

(** A fresh invocation in the world [w]. *)
Definition start (w : W) : state := mkState w [].

End Program.

Notation "x <- m ;; k" := (bind m (fun x => k))
  (at level 100, m at next level, right associativity).

(** ** Vocabulary of the statements *)

(** [x <= y] on prices, and the lists in non-decreasing order of price:
    every element is [<=] the next one. *)
Definition price_le (a b : NormalizedOffer) : Prop :=
  PyFloat.leb (price_brl a) (price_brl b) = true.

Definition sorted_by_price (l : list NormalizedOffer) : Prop :=
  Sorted price_le l.

(** The offers of [l] whose price is [==] to [p], in their order in [l]. *)
Definition priced (p : float) (l : list NormalizedOffer) : list NormalizedOffer :=
  List.filter (fun n => PyFloat.eqb p (price_brl n)) l.

Definition no_nan_price (l : list NormalizedOffer) : Prop :=
  Forall (fun n => PyFloat.is_nan (price_brl n) = false) l.

(** The sort of a leg. *)
Definition price_sort : list NormalizedOffer -> list NormalizedOffer :=
  PySort.sort price_brl PyFloat.ltb.

(** The leg [l] of the result after [list.sort], [items] being its
    elements in the order in which the iterations appended them: a
    permutation of [items], and their stable sort when no price is NaN. *)
Definition ranked (items l : list NormalizedOffer) : Prop :=
  Permutation l items /\ (no_nan_price items -> l = price_sort items).

(** [0 <= x] *)
Definition nonneg (x : float) : Prop :=
  PyFloat.leb (S754_zero false) x = true.

(** The first segment of the first itinerary, [None] when there is none. *)
Definition first_segment (o : RawOffer) : option Segment :=
  match head (itineraries o) with
  | Some it => head (segments it)
  | None => None
  end.

(** [companies.get(code, code)] *)
Definition display_name (code : string) : string :=
  default code (companies !! code).

(** The offer [o] with [code] as the carrier code of its first segment. *)
Definition with_carrier (code : string) (o : RawOffer) : RawOffer :=
  match itineraries o with
  | it :: its =>
      match segments it with
      | seg :: segs =>
          mkRawOffer (price o)
            (mkItinerary
               (mkSegment code (departure seg) (arrival seg) (numberOfStops seg)
                :: segs) :: its)
            (numberOfBookableSeats o)
      | [] => o
      end
  | [] => o
  end.

(** The element that the loop body appends for the offer [o] when the
    cache is [rates]; [None] when one of its steps raises. *)
Definition item_of (rates : gmap string float) (o : RawOffer)
  : option NormalizedOffer :=
  match first_segment o, FloatOfStr.float_of_str (grandTotal (price o)),
        rates !! currency (price o) with
  | Some seg, Some total, Some rate =>
      Some {| company := display_name (carrierCode seg);
              departure_time := at_ (departure seg);
              arrival_time := at_ (arrival seg);
              stops := numberOfStops seg;
              seats_remaining := numberOfBookableSeats o;
              price_brl := PyFloat.round2 (PyFloat.mul total rate) |}
  | _, _, _ => None
  end.

(** Reading the log: the currencies whose rate was requested, and the
    requests sent to the offer search. *)
Definition requested_currency (rq : Request) : option string :=
  if String.eqb (req_url rq) "https://api.exchangeratesapi.io/v1/latest" then
    match req_params rq with
    | [ (_, _); (_, FStr cur); (_, _) ] => Some cur
    | _ => None
    end
  else None.

Definition rate_lookups (log : list Request) : list string :=
  omap requested_currency log.

Definition is_search (rq : Request) : bool :=
  String.eqb (req_url rq) "https://test.api.amadeus.com/v2/shopping/flight-offers".

Definition searches (log : list Request) : list Request :=
  List.filter is_search log.

(** A status code of the 2xx class. *)
Definition success_status (code : Z) : bool := (200 <=? code) && (code <? 300).

Section LogVocabulary.
Context `{Wd : World}.

(** The world after the request [rq] was answered, by the service that
    its URL names. *)
Definition answered (w : W) (rq : Request) : W :=
  if is_search rq then snd (offer_service rq w)
  else if String.eqb (req_url rq) "https://api.exchangeratesapi.io/v1/latest"
       then snd (rate_service rq w)
       else snd (token_service rq w).

(** The state of an invocation that started in the world [w0] and has
    sent the requests of [log]. *)
Definition state_after (w0 : W) (log : list Request) : state :=
  mkState (fold_left answered log w0) log.

(** [rate] is what the request for the rate of [cur] that is in the log
    of the invocation returned: the result of the call of [_get_rate cur]
    made in the state that the invocation, started in the world [w0], was
    in after the requests [before] that precede that request in the
    log. *)
Definition looked_up (w0 : W) (log : list Request) (cur : string) (rate : float)
  : Prop :=
  exists before s2,
    (before ++ [rate_request cur]) `prefix_of` log
    /\ _get_rate cur (state_after w0 before) = (Ok rate, s2).

(** The invocation that started in the world [w0] is in the state [s],
    and every rate of the cache is what the request for it returned. *)
Definition true_rates (w0 : W) (rates : gmap string float) (s : state) : Prop :=
  s = state_after w0 (sent s)
  /\ forall c r, rates !! c = Some r -> looked_up w0 (sent s) c r.

End LogVocabulary.

Section CacheVocabulary.
Context `{Wd : World}.

(** The invariant of the loops: no currency was requested twice, and
    every requested currency is in the cache. *)
Definition cache_inv (rates : gmap string float) (log : list Request) : Prop :=
  NoDup (rate_lookups log)
  /\ (forall c, c ∈ rate_lookups log -> is_Some (rates !! c)).

(** The currencies of the offers of the legs. *)
Definition currencies (legs : list (string * list RawOffer)) : list string :=
  concat (map (fun item => map (fun o => currency (price o)) (snd item)) legs).

End CacheVocabulary.

(** ** Scripted worlds for the examples *)

Module Scenario.

Definition answer {T} (code : Z) (member : string) (v : T) : option (Response T) :=
  Some (mkResponse code (Some {[ member := v ]})).

(** The value of the query field [name], when it is a string. *)
Definition param (name : string) (rq : Request) : string :=
  match List.find (fun kv => String.eqb (fst kv) name) (req_params rq) with
  | Some (_, FStr v) => v
  | _ => ""
  end.

Definition offer (carrier dep arr : string) (nstops seats : Z)
    (total cur : string) : RawOffer :=
  mkRawOffer (mkPrice cur total)
    [mkItinerary [mkSegment carrier (mkEndpoint dep) (mkEndpoint arr) nstops]]
    seats.

(** A world whose state counts the rate requests answered so far. The
    token service gives [token]. The offer search answers with the status
    [code] and, under [data], the list [out] for the flights from GRU and
    the list [inb] for the others. The rate service answers with the BRL
    rate [rate cur n], [n] being the count. *)
Definition scripted (token : option (Response string)) (code : Z)
    (out inb : list RawOffer) (rate : string -> nat -> float) : World :=
  {| W := nat;
     getenv := fun _ => None;
     pad_year := false;
     token_service := fun _ w => (token, w);
     offer_service := fun rq w =>
       (answer code "data"
          (if String.eqb (param "originLocationCode" rq) "GRU" then out else inb), w);
     rate_service := fun rq w =>
       (answer 200 "rates" ({[ "BRL" := rate (param "base" rq) w ]} : gmap string float),
        S w) |}.

Definition granted : option (Response string) := answer 200 "access_token" "T0".

Definition f (mant e10 : Z) : float := PyFloat.of_decimal false mant e10.

(** USD at 5.0 and EUR at 5.5, whenever asked. *)
Definition fixed_rate (cur : string) (n : nat) : float :=
  if String.eqb cur "USD" then f 50 (-1) else f 55 (-1).

(** A rate that goes up by one with every request. *)
Definition drifting_rate (cur : string) (n : nat) : float :=
  PyFloat.of_Z (5 + Z.of_nat n).

Definition offer_200_usd : RawOffer :=
  offer "LA" "2025-12-10T08:00:00" "2025-12-10T18:05:00" 0 9 "200.00" "USD".
Definition offer_150_eur : RawOffer :=
  offer "AD" "2025-12-10T09:30:00" "2025-12-10T21:40:00" 1 4 "150.00" "EUR".
Definition offer_180_usd : RawOffer :=
  offer "G3" "2025-12-10T11:15:00" "2025-12-10T20:00:00" 0 7 "180.00" "USD".

Definition three_offers : list RawOffer :=
  [offer_200_usd; offer_150_eur; offer_180_usd].

(** Two offers of the same price in BRL, 550.00, then a cheaper one. *)
Definition tied_offers : list RawOffer :=
  [ offer "AD" "2025-12-20T17:00:00" "2025-12-21T05:10:00" 0 3 "110.00" "USD";
    offer "UA" "2025-12-20T18:20:00" "2025-12-21T06:45:00" 1 5 "100.00" "EUR";
    offer "LA" "2025-12-20T19:00:00" "2025-12-21T07:00:00" 0 2 "50.00" "USD" ].

(** One itinerary of two segments, with a stop during the first. *)
Definition connecting_offer : RawOffer :=
  mkRawOffer (mkPrice "USD" "300.00")
    [mkItinerary
       [ mkSegment "2Z" (mkEndpoint "2025-12-10T06:00:00")
                        (mkEndpoint "2025-12-10T09:00:00") 1;
         mkSegment "AA" (mkEndpoint "2025-12-10T10:30:00")
                        (mkEndpoint "2025-12-10T19:45:00") 0 ]]
    6.

Definition nan_offers : list RawOffer :=
  [ offer "LA" "2025-12-10T08:00:00" "2025-12-10T18:05:00" 0 9 "2.00" "USD";
    offer "AD" "2025-12-10T09:30:00" "2025-12-10T21:40:00" 1 4 "nan" "USD";
    offer "G3" "2025-12-10T11:15:00" "2025-12-10T20:00:00" 0 7 "1.00" "USD" ].

Definition refund_offers : list RawOffer :=
  [ offer "LA" "2025-12-10T08:00:00" "2025-12-10T18:05:00" 0 9 "-10.00" "USD" ].

Definition many_offers : list RawOffer :=
  repeat (offer "G3" "2025-12-10T11:15:00" "2025-12-10T20:00:00" 0 7 "180.00" "USD") 21.

Definition normal : World := scripted granted 200 three_offers tied_offers fixed_rate.
Definition drifting : World :=
  scripted granted 200 three_offers (connecting_offer :: tied_offers) drifting_rate.
Definition no_token : World := scripted None 200 three_offers tied_offers fixed_rate.
Definition status_500 : World := scripted granted 500 three_offers tied_offers fixed_rate.
Definition with_nan : World := scripted granted 200 nan_offers [] fixed_rate.
Definition with_refund : World := scripted granted 200 refund_offers [] fixed_rate.
Definition crowded : World := scripted granted 200 many_offers [connecting_offer] fixed_rate.

(** The invocation of the examples, and its fetching phase. *)
Definition trip `{Wd : World} : Py (gmap string (list NormalizedOffer)) :=
  _run "GRU" "JFK" "10/12/2025" "20/12/2025".

Definition trip_legs `{Wd : World} : Py (list (string * list RawOffer)) :=
  fetch_legs "GRU" "JFK" "10/12/2025" "20/12/2025".

(** The result dict of an outcome; empty when it is an exception. *)
Definition returned `{Wd : World}
    (x : result (gmap string (list NormalizedOffer)) * state)
  : gmap string (list NormalizedOffer) :=
  match fst x with Ok r => r | Raise _ => ∅ end.

End Scenario.

(** ** Vocabulary of the further properties *)

Module PyDateText.
Import PyDate.

(** The texts of a day: one digit, or two characters of which the first
    is a digit or a blank and the second a digit. *)
Definition day_text (l : list ascii) : bool :=
  match l with
  | [c] => digit c
  | [c1; c2] => (digit c1 || Ascii.eqb c1 " ") && digit c2
  | _ => false
  end.

(** The texts of [lo] to [hi] digits. *)
Definition digits_text (lo hi : nat) (l : list ascii) : bool :=
  (lo <=? length l)%nat && (length l <=? hi)%nat && forallb digit l.

(** The texts [dd/mm/yyyy] of the dates of the calendar. *)
Definition date_text (s : string) (dt : date) : Prop :=
  exists dd mm yyyy,
    list_ascii_of_string s = dd ++ "/"%char :: mm ++ "/"%char :: yyyy
    /\ day_text dd = true
    /\ digits_text 1 2 mm = true
    /\ digits_text 4 4 yyyy = true
    /\ dt = mkDate (int_of yyyy) (int_of mm) (int_of dd)
    /\ valid_date (year dt) (month dt) (day dt) = true.

End PyDateText.


(** The list [acc] of what was seen, after [c] is seen. *)
Definition see (acc : list string) (c : string) : list string :=
  if decide (c ∈ acc) then acc else acc ++ [c].

(** The elements of [l] without repetition, in the order of their first
    occurrence. *)
Definition first_seen (l : list string) : list string := fold_left see l [].

(** The cache holds the currencies that were requested, and no other. *)
Definition cache_exact (rates : gmap string float) (log : list Request) : Prop :=
  forall c, is_Some (rates !! c) <-> c ∈ rate_lookups log.

(** ** A scripted world with a carrier that has no code *)

Module Incidents.
Import Scenario.

(** The carrier code of the only offer is the empty string. *)
Definition unnamed_offers : list RawOffer :=
  [ offer "" "2025-12-10T08:00:00" "2025-12-10T18:05:00" 0 9 "200.00" "USD" ].

Definition unnamed : World :=
  scripted granted 200 unnamed_offers [] fixed_rate.

End Incidents.

Module PyFloatFacts.
Import PyFloat.

Lemma compare_cont_Eq (p q : positive) : Pos.compare_cont Eq p q = (p ?= q)%positive.
Proof. reflexivity. Qed.

Ltac order_cases :=
  repeat match goal with
  | |- context [Z.compare ?a ?b] => destruct (Z.compare_spec a b)
  | H : context [Z.compare ?a ?b] |- _ => destruct (Z.compare_spec a b)
  | |- context [Pos.compare ?a ?b] => destruct (Pos.compare_spec a b)
  | H : context [Pos.compare ?a ?b] |- _ => destruct (Pos.compare_spec a b)
  end.

Ltac float_order :=
  intros;
  unfold leb, ltb, eqb, SFleb, SFltb, SFeqb, SFcompare, is_nan in *;
  repeat match goal with
  | x : float |- _ => destruct x
  | x : spec_float |- _ => destruct x
  | b : bool |- _ => destruct b
  end;
  rewrite ?compare_cont_Eq in *; simpl in *;
  try discriminate; try reflexivity;
  order_cases; simpl in *; subst; try discriminate; try reflexivity; try congruence; try lia.

Lemma ltb_leb x y : ltb x y = true -> leb x y = true.
Proof. float_order. Qed.

Lemma leb_total x y :
  is_nan x = false -> is_nan y = false -> ltb y x = false -> leb x y = true.
Proof. float_order. Qed.

Lemma leb_trans x y z : leb x y = true -> leb y z = true -> leb x z = true.
Proof. float_order. Qed.

Lemma ltb_not_eqb k a b : ltb a b = true -> eqb k b = true -> eqb k a = false.
Proof. float_order. Qed.

Lemma eqb_leb x y : eqb x y = true <-> leb x y = true /\ leb y x = true.
Proof. split; [intros H; split | intros [H1 H2]]; float_order. Qed.

End PyFloatFacts.

Module PyFloatSign.
Import PyFloat.

Lemma nonneg_sign_ok x : PyFloat.leb (S754_zero false) x = true <-> sign_ok x.
Proof.
  destruct x as [s|s| |s m e]; try destruct s; simpl; unfold leb, SFleb; simpl;
    split; intros; try reflexivity; try discriminate; try contradiction; auto.
Qed.

Lemma shr_1_nonneg mrs : 0 <= shr_m mrs -> 0 <= shr_m (shr_1 mrs).
Proof.
  destruct mrs as [m r s]; simpl.
  destruct m as [|p|p]; simpl; try lia; destruct p; simpl; lia.
Qed.

Lemma iter_shr_1_nonneg p mrs :
  0 <= shr_m mrs -> 0 <= shr_m (SpecFloat.iter_pos shr_1 p mrs).
Proof.
  revert mrs; induction p; intros mrs H; simpl; auto using shr_1_nonneg.
Qed.

Lemma shr_fexp_nonneg m e l :
  0 <= m -> 0 <= shr_m (fst (shr_fexp prec emax m e l)).
Proof.
  intros H. unfold shr_fexp, shr.
  assert (H0 : 0 <= shr_m (shr_record_of_loc m l))
    by (destruct l as [|[]]; simpl; lia).
  destruct (fexp prec emax (Zdigits2 m + e) - e); simpl; auto.
  now apply iter_shr_1_nonneg.
Qed.

Lemma round_nearest_even_nonneg m l : 0 <= m -> 0 <= round_nearest_even m l.
Proof.
  intros H. destruct l as [|[]]; simpl; try lia.
  destruct (Z.even m); lia.
Qed.

(** Rounding a non-negative mantissa gives a zero, a finite number or an
    infinity of the sign asked for. *)
Lemma binary_round_aux_sign s m e l :
  0 <= m ->
  match binary_round_aux prec emax s m e l with
  | S754_nan => False
  | S754_zero s' | S754_infinity s' | S754_finite s' _ _ => s' = s
  end.
Proof.
  intros H. unfold binary_round_aux.
  pose proof (shr_fexp_nonneg m e l H) as H1.
  destruct (shr_fexp prec emax m e l) as [mrs' e']; simpl in H1.
  pose proof (shr_fexp_nonneg _ e' loc_Exact
                (round_nearest_even_nonneg _ (loc_of_shr_record mrs') H1)) as H2.
  destruct (shr_fexp prec emax
              (round_nearest_even (shr_m mrs') (loc_of_shr_record mrs')) e' loc_Exact)
    as [mrs'' e'']; simpl in H2.
  destruct (shr_m mrs'') as [|p|p]; try reflexivity; try lia.
  destruct (e'' <=? emax - prec); reflexivity.
Qed.

Lemma mul_sign_ok x y :
  sign_ok x -> sign_ok y -> is_finite x = true -> is_finite y = true ->
  sign_ok (mul x y) /\ is_finite (mul x y) = true \/ mul x y = S754_infinity false.
Proof.
  destruct x as [sx|sx| |sx mx ex], y as [sy|sy| |sy my ey]; simpl;
    intros Hx Hy Fx Fy; try discriminate; try contradiction; auto.
  subst. unfold mul; simpl.
  pose proof (binary_round_aux_sign false (Zpos (mx * my)) (ex + ey) loc_Exact
                ltac:(lia)) as H.
  destruct (binary_round_aux prec emax false (Z.pos (mx * my)) (ex + ey) loc_Exact);
    simpl; try contradiction; subst; auto.
Qed.

Lemma div_half_even_nonneg a b : 0 <= a -> 0 <= div_half_even a b.
Proof.
  intros H. unfold div_half_even.
  assert (0 <= a / Z.pos b) by (apply Z.div_pos; lia).
  destruct (2 * (a mod Z.pos b) ?= Z.pos b); try lia.
  destruct (Z.even (a / Z.pos b)); lia.
Qed.

Lemma of_ratio_sign s p q :
  match of_ratio s p q with
  | S754_nan => False
  | S754_zero s' | S754_infinity s' | S754_finite s' _ _ => s' = s
  end.
Proof.
  unfold of_ratio. destruct p as [|p|p]; try reflexivity.
  unfold SFdiv.
  destruct (SFdiv_core_binary prec emax (Z.pos p) 0 (Z.pos q) 0) as [[mz ez] lz] eqn:E.
  assert (Hm : 0 <= mz).
  { unfold SFdiv_core_binary in E.
    match type of E with
    | context [Z.div_eucl ?a ?b] =>
        pose proof (Z_div_mod a b ltac:(lia)) as D;
        assert (Ha : 0 <= a); [| destruct (Z.div_eucl a b) as [q0 r0] ]
    end.
    - destruct (0 - 0 - Z.min _ (0 - 0)); try lia. rewrite Z.shiftl_mul_pow2 by lia. lia.
    - injection E as <- _ _. destruct D as [D1 D2]. nia. }
  pose proof (binary_round_aux_sign (xorb s false) mz ez lz Hm) as H.
  rewrite xorb_false_r in H. rewrite xorb_false_r. exact H.
Qed.

Lemma round2_sign_ok x : sign_ok x -> sign_ok (round2 x).
Proof.
  destruct x as [s|s| |s m e]; simpl; auto.
  intros ->. destruct e; simpl; auto.
  match goal with |- sign_ok (of_ratio ?s ?p ?q) =>
    pose proof (of_ratio_sign s p q) as H; destruct (of_ratio s p q) end;
    simpl; auto.
Qed.

Lemma price_nonneg total rate :
  sign_ok total -> sign_ok rate ->
  is_finite total = true -> is_finite rate = true ->
  sign_ok (round2 (mul total rate)).
Proof.
  intros Ht Hr Ft Fr.
  destruct (mul_sign_ok total rate Ht Hr Ft Fr) as [[H _]|H].
  - now apply round2_sign_ok.
  - rewrite H. reflexivity.
Qed.

End PyFloatSign.

(** ** Signs of the prices, the infinities included *)

Module PyFloatProduct.
Import PyFloat.

Lemma mul_sign x y :
  sign_ok x -> sign_ok y -> is_nan (mul x y) = false -> sign_ok (mul x y).
Proof.
  destruct x as [sx|sx| |sx mx ex], y as [sy|sy| |sy my ey]; simpl;
    intros Hx Hy Hn; try discriminate; try contradiction; subst; auto.
  unfold mul; simpl.
  pose proof (PyFloatSign.binary_round_aux_sign false (Zpos (mx * my)) (ex + ey)
                loc_Exact ltac:(lia)) as H.
  destruct (binary_round_aux prec emax false (Z.pos (mx * my)) (ex + ey) loc_Exact);
    simpl; try contradiction; subst; auto.
Qed.

Lemma round2_nan x : is_nan (round2 x) = is_nan x.
Proof.
  destruct x as [s|s| |s m e]; try reflexivity.
  destruct e; try reflexivity. cbn [round2].
  match goal with |- is_nan (of_ratio ?s ?p ?q) = _ =>
    pose proof (PyFloatSign.of_ratio_sign s p q) as H; destruct (of_ratio s p q) end;
    simpl; auto; contradiction.
Qed.

(** The price of a non-negative total at a non-negative rate is
    non-negative, unless their product is NaN. *)
Lemma price_sign total rate :
  sign_ok total -> sign_ok rate ->
  (sign_ok (round2 (mul total rate)) <-> is_nan (mul total rate) = false).
Proof.
  intros Ht Hr. split.
  - intros H. rewrite <- round2_nan.
    destruct (round2 (mul total rate)); simpl in *; auto; contradiction.
  - intros H. apply PyFloatSign.round2_sign_ok. now apply mul_sign.
Qed.

(** The product of two non-negative floats is NaN exactly when one is
    infinite and the other is zero. *)
Lemma mul_nan x y :
  sign_ok x -> sign_ok y ->
  (is_nan (mul x y) = true
   <-> (x = S754_infinity false /\ exists s, y = S754_zero s)
       \/ ((exists s, x = S754_zero s) /\ y = S754_infinity false)).
Proof.
  destruct x as [sx|sx| |sx mx ex], y as [sy|sy| |sy my ey]; simpl;
    intros Hx Hy; try contradiction; subst; unfold mul; simpl.
  all: split;
    [ intros H; try discriminate; eauto
    | intros [[H1 [s H2]]|[[s H1] H2]]; try discriminate; try reflexivity ].
  exfalso.
  pose proof (PyFloatSign.binary_round_aux_sign false (Zpos (mx * my)) (ex + ey)
                loc_Exact ltac:(lia)) as Hs.
  destruct (binary_round_aux prec emax false (Z.pos (mx * my)) (ex + ey) loc_Exact);
    simpl in *; try discriminate; contradiction.
Qed.

End PyFloatProduct.

Module PySortFacts.
Import PySort.

Section Facts.
Context {A K : Type} (key : A -> K).
Context (lt le eq : K -> K -> bool) (ok : K -> Prop).

(** What is used of the order on the keys that satisfy [ok]. *)
Hypothesis lt_le : forall a b, lt a b = true -> le a b = true.
Hypothesis le_total :
  forall a b, ok a -> ok b -> lt b a = false -> le a b = true.
Hypothesis le_trans :
  forall a b c, le a b = true -> le b c = true -> le a c = true.
Hypothesis lt_not_eq :
  forall k a b, lt a b = true -> eq k b = true -> eq k a = false.
Hypothesis eq_le :
  forall a b, eq a b = true <-> le a b = true /\ le b a = true.

Local Abbreviation R := (le_by key le).
Local Abbreviation same := (eq_by key eq).

Local Abbreviation insert := (insert key lt).
Local Abbreviation sort := (sort key lt).

Lemma insert_perm x l : Permutation (insert x l) (x :: l).
Proof.
  induction l as [|y l IH]; simpl; [reflexivity|].
  destruct (lt (key y) (key x)); [|reflexivity].
  rewrite IH. apply perm_swap.
Qed.

Lemma sort_perm l : Permutation (sort l) l.
Proof.
  induction l as [|x l IH]; simpl; [reflexivity|].
  rewrite insert_perm. now constructor.
Qed.

Lemma sort_length l : length (sort l) = length l.
Proof. apply Permutation_length, sort_perm. Qed.

Lemma insert_sorted x l :
  ok (key x) -> Forall (fun y => ok (key y)) l ->
  StronglySorted R l -> StronglySorted R (insert x l).
Proof.
  intros Hx Hl Hs. induction Hs as [|y l Hs IH Hy]; simpl.
  - repeat constructor.
  - apply Forall_cons_1 in Hl as [Hoy Hl].
    destruct (lt (key y) (key x)) eqn:E.
    + constructor; [auto|].
      rewrite insert_perm. constructor; [|assumption].
      now apply lt_le.
    + assert (Hxy : R x y) by now apply le_total.
      constructor; [now constructor|].
      constructor; [assumption|].
      eapply Forall_impl; [exact Hy|].
      intros z Hz. unfold le_by in *. eauto.
Qed.

Lemma sort_strongly_sorted l :
  Forall (fun y => ok (key y)) l -> StronglySorted R (sort l).
Proof.
  induction l as [|x l IH]; simpl; intros H; [constructor|].
  apply Forall_cons_1 in H as [Hx Hl].
  apply insert_sorted; auto.
  rewrite sort_perm. exact Hl.
Qed.

Lemma sort_sorted l :
  Forall (fun y => ok (key y)) l -> Sorted R (sort l).
Proof. intros H. now apply StronglySorted_Sorted, sort_strongly_sorted. Qed.

(** Insertion moves [x] only past elements of a strictly smaller key. *)
Lemma insert_stable k x l :
  List.filter (same k) (insert x l) = List.filter (same k) (x :: l).
Proof.
  induction l as [|y l IH]; [reflexivity|].
  simpl insert. destruct (lt (key y) (key x)) eqn:E; [|reflexivity].
  simpl in *. rewrite IH.
  destruct (same k x) eqn:Ex; [|reflexivity].
  unfold eq_by in *. now rewrite (lt_not_eq k _ _ E Ex).
Qed.

Lemma sort_stable k l :
  List.filter (same k) (sort l) = List.filter (same k) l.
Proof.
  induction l as [|x l IH]; [reflexivity|].
  simpl sort. rewrite insert_stable. simpl. now rewrite IH.
Qed.

(** Two sorted lists with the same elements of each key, in the same
    order, are equal: the result of a stable sort is determined. *)
Lemma stable_sorted_unique l1 l2 :
  StronglySorted R l1 -> StronglySorted R l2 ->
  Forall (fun y => ok (key y)) l1 -> Forall (fun y => ok (key y)) l2 ->
  (forall k, List.filter (same k) l1 = List.filter (same k) l2) ->
  l1 = l2.
Proof.
  intros H1. revert l2.
  assert (refl : forall x, ok (key x) -> same (key x) x = true).
  { intros x Hx. unfold eq_by. apply eq_le.
    assert (le (key x) (key x) = true); [|now split].
    apply le_total; auto.
    destruct (lt (key x) (key x)) eqn:E; [|reflexivity].
    assert (eq (key x) (key x) = false) as Hf.
    { eapply lt_not_eq; [exact E|]. apply eq_le. split; now apply lt_le. }
    apply lt_le in E. assert (eq (key x) (key x) = true) by now apply eq_le.
    congruence. }
  assert (head_in : forall x l l', ok (key x) ->
            (forall k, List.filter (same k) (x :: l) = List.filter (same k) l') ->
            In x l').
  { intros x l l' Hx H. specialize (H (key x)). simpl in H.
    rewrite refl in H by assumption.
    assert (In x (List.filter (same (key x)) l')) as Hin
      by (rewrite <- H; now left).
    now apply filter_In in Hin. }
  induction H1 as [|x l1 Hs1 IH Hx]; intros l2 H2 O1 O2 Hf.
  - destruct l2 as [|y l2]; [reflexivity|].
    apply Forall_cons_1 in O2 as [Oy _].
    specialize (Hf (key y)). simpl in Hf. now rewrite refl in Hf.
  - apply Forall_cons_1 in O1 as [Ox O1].
    destruct l2 as [|y l2].
    { specialize (Hf (key x)). simpl in Hf. now rewrite refl in Hf. }
    apply Forall_cons_1 in O2 as [Oy O2].
    apply StronglySorted_inv in H2 as [H2 Hy].
    assert (Exy : same (key x) y = true).
    { unfold eq_by. apply eq_le. split.
      - pose proof (head_in x l1 (y :: l2) Ox Hf) as [->|Hin].
        + apply eq_le. now apply (refl x).
        + rewrite List.Forall_forall in Hy.
          (* x occurs in l2, after y: y <= x; and y occurs in x :: l1 *)
          assert (In y (x :: l1)) as [->|Hin'].
          { apply (head_in y l2 (x :: l1) Oy). intros k. now rewrite Hf. }
          * apply eq_le. now apply (refl y).
          * rewrite List.Forall_forall in Hx. now apply Hx.
      - assert (In y (x :: l1)) as [->|Hin'].
        { apply (head_in y l2 (x :: l1) Oy). intros k. now rewrite Hf. }
        + apply eq_le. now apply (refl y).
        + pose proof (head_in x l1 (y :: l2) Ox Hf) as [->|Hin].
          * apply eq_le. now apply (refl x).
          * rewrite List.Forall_forall in Hy. now apply Hy. }
    pose proof (Hf (key x)) as Hk. simpl in Hk.
    rewrite refl, Exy in Hk by assumption.
    injection Hk as -> Hk.
    f_equal. apply IH; auto.
    intros k. specialize (Hf k). simpl in Hf.
    destruct (same k y); [now injection Hf|assumption].
Qed.

Lemma stable_sort_unique l l' :
  Forall (fun y => ok (key y)) l ->
  Permutation l' l ->
  StronglySorted R l' ->
  (forall k, List.filter (same k) l' = List.filter (same k) l) ->
  l' = sort l.
Proof.
  intros Hok Hp Hs Hf.
  apply stable_sorted_unique; auto using sort_strongly_sorted.
  - now rewrite Hp.
  - now rewrite sort_perm.
  - intros k. now rewrite Hf, sort_stable.
Qed.
End Facts.
End PySortFacts.

Module PyDateFacts.
Import PyDate.

Lemma digit_char_digit k : digit (digit_char (k mod 10)) = true.
Proof.
  pose proof (Z.mod_pos_bound k 10 ltac:(lia)) as H.
  remember (k mod 10) as d eqn:Ed. clear Ed.
  assert (d = 0 \/ d = 1 \/ d = 2 \/ d = 3 \/ d = 4 \/ d = 5 \/ d = 6
          \/ d = 7 \/ d = 8 \/ d = 9) as C by lia.
  repeat (destruct C as [->|C]; [reflexivity|]). subst. reflexivity.
Qed.

Lemma decimal_1 n :
  0 <= n < 10 -> decimal n = String (digit_char (n mod 10)) "".
Proof.
  intros H. unfold decimal.
  destruct (Z.to_nat n); cbn [decimal_from]; [reflexivity|].
  destruct (Z.ltb_spec n 10); [reflexivity|lia].
Qed.

Lemma decimal_2 n :
  10 <= n < 100 ->
  decimal n = String (digit_char (n / 10 mod 10)) (String (digit_char (n mod 10)) "").
Proof.
  intros H. unfold decimal.
  destruct (Z.to_nat n) as [|[|f]] eqn:E; try lia. cbn [decimal_from].
  destruct (Z.ltb_spec n 10); [lia|].
  destruct (Z.ltb_spec (n / 10) 10); [reflexivity|].
  assert (n / 10 < 10) by (apply Z.div_lt_upper_bound; lia). lia.
Qed.

Lemma decimal_3 n :
  100 <= n < 1000 ->
  decimal n
  = String (digit_char (n / 10 / 10 mod 10))
      (String (digit_char (n / 10 mod 10)) (String (digit_char (n mod 10)) "")).
Proof.
  intros H. unfold decimal.
  destruct (Z.to_nat n) as [|[|[|f]]] eqn:E; try lia. cbn [decimal_from].
  assert (10 <= n / 10 < 100)
    by (split; [apply Z.div_le_lower_bound | apply Z.div_lt_upper_bound]; lia).
  assert (n / 10 / 10 < 10) by (apply Z.div_lt_upper_bound; lia).
  destruct (Z.ltb_spec n 10); [lia|].
  destruct (Z.ltb_spec (n / 10) 10); [lia|].
  destruct (Z.ltb_spec (n / 10 / 10) 10); [reflexivity|lia].
Qed.

Lemma decimal_4 n :
  1000 <= n < 10000 ->
  decimal n
  = String (digit_char (n / 10 / 10 / 10 mod 10))
      (String (digit_char (n / 10 / 10 mod 10))
         (String (digit_char (n / 10 mod 10)) (String (digit_char (n mod 10)) ""))).
Proof.
  intros H. unfold decimal.
  destruct (Z.to_nat n) as [|[|[|[|f]]]] eqn:E; try lia. cbn [decimal_from].
  assert (100 <= n / 10 < 1000)
    by (split; [apply Z.div_le_lower_bound | apply Z.div_lt_upper_bound]; lia).
  assert (10 <= n / 10 / 10 < 100)
    by (split; [apply Z.div_le_lower_bound | apply Z.div_lt_upper_bound]; lia).
  assert (n / 10 / 10 / 10 < 10) by (apply Z.div_lt_upper_bound; lia).
  destruct (Z.ltb_spec n 10); [lia|].
  destruct (Z.ltb_spec (n / 10) 10); [lia|].
  destruct (Z.ltb_spec (n / 10 / 10) 10); [lia|].
  destruct (Z.ltb_spec (n / 10 / 10 / 10) 10); [reflexivity|lia].
Qed.

Lemma year_padded_four_digits y :
  1 <= y <= 9999 -> four_digits (zero_pad 4 y) = true.
Proof.
  intros H. unfold zero_pad, four_digits.
  destruct (Z.lt_ge_cases y 10); [rewrite decimal_1 by lia|].
  2: destruct (Z.lt_ge_cases y 100); [rewrite decimal_2 by lia|].
  3: destruct (Z.lt_ge_cases y 1000);
       [rewrite decimal_3 by lia|rewrite decimal_4 by lia].
  all: cbv [String.length Nat.sub zeros String.append list_ascii_of_string];
    now rewrite !digit_char_digit.
Qed.

Lemma year_unpadded y : 1000 <= y <= 9999 -> decimal y = zero_pad 4 y.
Proof. intros H. unfold zero_pad. now rewrite decimal_4 by lia. Qed.

Lemma month_day_two_digits n : 1 <= n <= 31 -> two_digits (zero_pad 2 n) = true.
Proof.
  intros H. unfold zero_pad, two_digits.
  destruct (Z.lt_ge_cases n 10);
    [rewrite decimal_1 by lia|rewrite decimal_2 by lia].
  all: cbv [String.length Nat.sub zeros String.append list_ascii_of_string];
    now rewrite !digit_char_digit.
Qed.

(** A date that [strptime] accepts is a date of the calendar. *)
Lemma strptime_valid s dt :
  strptime s = Some dt ->
  1 <= year dt <= 9999 /\ 1 <= month dt <= 12 /\ 1 <= day dt <= 31.
Proof.
  unfold strptime.
  destruct (format_regex_match _) as [[[[d m] y] [|c rest]]|]; try discriminate.
  destruct (valid_date _ _ _) eqn:E; [|discriminate].
  intros H. injection H as <-. cbn [year month day] in *.
  unfold valid_date in E.
  repeat (apply andb_prop in E as [E ?]).
  assert (days_in_month (int_of y) (int_of m) <= 31).
  { unfold days_in_month.
    repeat match goal with |- context [if ?b then _ else _] => destruct b end; lia. }
  lia.
Qed.

(** The text of an accepted date is yyyy-MM-dd, the year of four digits
    when the platform pads it or when it is 1000 or more. *)
Lemma strftime_iso pad s dt :
  strptime s = Some dt ->
  pad = true \/ 1000 <= year dt ->
  strftime pad dt
  = (zero_pad 4 (year dt) ++ "-" ++ zero_pad 2 (month dt) ++ "-"
     ++ zero_pad 2 (day dt))%string
  /\ four_digits (zero_pad 4 (year dt)) = true
  /\ two_digits (zero_pad 2 (month dt)) = true
  /\ two_digits (zero_pad 2 (day dt)) = true.
Proof.
  intros Hs Hp. apply strptime_valid in Hs as (Hy & Hm & Hd).
  split; [|split; [|split]].
  - unfold strftime. destruct pad; [reflexivity|].
    destruct Hp as [?|Hp]; [discriminate|].
    now rewrite year_unpadded by lia.
  - now apply year_padded_four_digits.
  - apply month_day_two_digits. lia.
  - now apply month_day_two_digits.
Qed.

End PyDateFacts.

(** ** The model on the values of the specification *)

Module ModelExamples.
Import PyFloat.

(** [round(x, 2)] is to the nearest, from the exact value of the float,
    with ties to even: 100.005 is the float just below it and rounds to
    100.0; 0.125 and 0.375 are exact ties. *)
Example round2_100_005 :
  round2 (of_decimal false 100005 (-3)) = of_Z 100.
Proof. vm_compute; reflexivity. Qed.

Example round2_ties :
  round2 (of_decimal false 125 (-3)) = of_decimal false 12 (-2)
  /\ round2 (of_decimal false 375 (-3)) = of_decimal false 38 (-2)
  /\ round2 (of_decimal false 2675 (-3)) = of_decimal false 267 (-2).
Proof. repeat split; vm_compute; reflexivity. Qed.

Example round2_keeps_nan_and_inf :
  round2 S754_nan = S754_nan
  /\ round2 (S754_infinity false) = S754_infinity false
  /\ round2 (of_decimal true 1 (-3)) = S754_zero true.
Proof. repeat split; vm_compute; reflexivity. Qed.

Example float_of_str_examples :
  FloatOfStr.float_of_str "200.00" = Some (of_Z 200)
  /\ FloatOfStr.float_of_str " 1_00.005e0 " = Some (of_decimal false 100005 (-3))
  /\ FloatOfStr.float_of_str "nan" = Some S754_nan
  /\ FloatOfStr.float_of_str "-Infinity" = Some (S754_infinity true)
  /\ FloatOfStr.float_of_str "12,50" = None
  /\ FloatOfStr.float_of_str "" = None.
Proof. repeat split; vm_compute; reflexivity. Qed.

Example strptime_examples :
  PyDate.strptime "10/12/2025" = Some (PyDate.mkDate 2025 12 10)
  /\ PyDate.strptime "1/2/2024" = Some (PyDate.mkDate 2024 2 1)
  /\ PyDate.strptime "29/02/2024" = Some (PyDate.mkDate 2024 2 29)
  /\ PyDate.strptime "29/02/2023" = None
  /\ PyDate.strptime "2025-12-10" = None
  /\ PyDate.strptime "10/12/2025 " = None
  /\ PyDate.strptime "10/13/2025" = None.
Proof. repeat split; vm_compute; reflexivity. Qed.

Example strftime_examples :
  PyDate.strftime false (PyDate.mkDate 2025 12 10) = "2025-12-10"
  /\ PyDate.strftime true (PyDate.mkDate 999 1 1) = "0999-01-01"
  /\ PyDate.strftime false (PyDate.mkDate 999 1 1) = "999-01-01".
Proof. repeat split; vm_compute; reflexivity. Qed.

End ModelExamples.

Section MonadFacts.
Context `{Wd : World}.

Lemma bind_inv {A B} (m : Py A) (f : A -> Py B) s r s' :
  bind m f s = (r, s') ->
  (exists a s1, m s = (Ok a, s1) /\ f a s1 = (r, s'))
  \/ (exists e, m s = (Raise e, s') /\ r = Raise e).
Proof.
  unfold bind. destruct (m s) as [[a|e] s1]; intros H.
  - left. eauto.
  - right. injection H as <- <-. eauto.
Qed.

Lemma bind_ok_inv {A B} (m : Py A) (f : A -> Py B) s b s' :
  bind m f s = (Ok b, s') ->
  exists a s1, m s = (Ok a, s1) /\ f a s1 = (Ok b, s').
Proof.
  intros H. apply bind_inv in H as [H|(e & _ & H)]; [exact H|discriminate].
Qed.

Lemma bind_raise {A B} (m : Py A) (f : A -> Py B) s e s1 :
  m s = (Raise e, s1) -> bind m f s = (Raise e, s1).
Proof. unfold bind. now intros ->. Qed.

Lemma ret_inv {A} (a : A) s r s' : ret a s = (r, s') -> r = Ok a /\ s' = s.
Proof. unfold ret. intros H. now injection H as <- <-. Qed.

Lemma of_option_inv {A} e (o : option A) s r s' :
  of_option e o s = (r, s') ->
  s' = s /\ match o with Some a => r = Ok a | None => r = Raise e end.
Proof.
  destruct o; simpl; unfold ret, raise; intros H; now injection H as <- <-.
Qed.

Lemma of_option_ok_inv {A} e (o : option A) s a s' :
  of_option e o s = (Ok a, s') -> o = Some a /\ s' = s.
Proof.
  intros H. apply of_option_inv in H as [-> H].
  destruct o; [injection H as ->; auto | discriminate].
Qed.

(** A request is logged whether or not it is answered. *)
Lemma send_log {T} (svc : Request -> W -> option (Response T) * W) rq s r s' :
  send svc rq s = (r, s') -> sent s' = sent s ++ [rq].
Proof.
  unfold send. destruct (svc rq (world s)) as [[a|] w']; intros H;
    injection H as _ <-; reflexivity.
Qed.

(** Reading a response does not change the state. *)
Lemma after_send {T U} (svc : Request -> W -> option (Response T) * W) rq
    (k : Response T -> Py U) s r s' :
  (forall x s1 r1 s2, k x s1 = (r1, s2) -> s2 = s1) ->
  bind (send svc rq) k s = (r, s') -> sent s' = sent s ++ [rq].
Proof.
  intros Hk H. apply bind_inv in H as [(a & s1 & H1 & H2)|(e & H1 & _)].
  - apply Hk in H2 as ->. eapply send_log; eauto.
  - eapply send_log; eauto.
Qed.

Lemma read2_pure {T} (r : Response T) (k : string) s res s' :
  (body <- json_of r ;; subscript body k) s = (res, s') -> s' = s.
Proof.
  intros H. apply bind_inv in H as [(a & s1 & H1 & H2)|(e & H1 & _)].
  - apply of_option_inv in H1 as [-> _]. now apply of_option_inv in H2 as [-> _].
  - now apply of_option_inv in H1 as [-> _].
Qed.

Lemma _amadeus_token_log s r s' :
  _amadeus_token s = (r, s') -> sent s' = sent s ++ [token_request].
Proof. apply after_send. intros x s1 r1 s2. apply read2_pure. Qed.

Lemma _search_leg_log token origin dest date s r s' :
  _search_leg token origin dest date s = (r, s') ->
  sent s' = sent s ++ [search_request token origin dest date].
Proof. apply after_send. intros x s1 r1 s2. apply read2_pure. Qed.

Lemma _get_rate_log cur s r s' :
  _get_rate cur s = (r, s') -> sent s' = sent s ++ [rate_request cur].
Proof.
  apply after_send. intros x s1 r1 s2 H.
  apply bind_inv in H as [(a & s3 & H1 & H2)|(e & H1 & _)].
  - apply of_option_inv in H1 as [-> _].
    apply bind_inv in H2 as [(b & s4 & H2 & H3)|(e & H2 & _)].
    + apply of_option_inv in H2 as [-> _]. now apply of_option_inv in H3 as [-> _].
    + now apply of_option_inv in H2 as [-> _].
  - now apply of_option_inv in H1 as [-> _].
Qed.

Lemma _to_iso_eq d s :
  _to_iso d s =
  (match PyDate.strptime d with
   | Some dt => Ok (PyDate.strftime pad_year dt)
   | None => Raise ValueError
   end, s).
Proof. unfold _to_iso. now destruct (PyDate.strptime d). Qed.

(** [_search_leg] in one equation: one request, and the three ways it
    raises. The status code of the response is not read. *)
Lemma _search_leg_eq token origin dest date s :
  _search_leg token origin dest date s =
  let rq := search_request token origin dest date in
  let '(answer, w') := offer_service rq (world s) in
  (match answer with
   | None => Raise RequestException
   | Some r =>
       match json r with
       | None => Raise JSONDecodeError
       | Some body =>
           match body !! "data" with
           | None => Raise (KeyError "data")
           | Some offers => Ok offers
           end
       end
   end, mkState w' (sent s ++ [rq])).
Proof.
  unfold _search_leg, bind, send. simpl.
  destruct (offer_service _ (world s)) as [[r|] w']; [|reflexivity].
  unfold json_of. destruct (json r) as [body|]; simpl; [|reflexivity].
  unfold subscript. destruct (body !! "data"); reflexivity.
Qed.

Lemma _amadeus_token_eq s :
  _amadeus_token s =
  let '(answer, w') := token_service token_request (world s) in
  (match answer with
   | None => Raise RequestException
   | Some r =>
       match json r with
       | None => Raise JSONDecodeError
       | Some body =>
           match body !! "access_token" with
           | None => Raise (KeyError "access_token")
           | Some tok => Ok tok
           end
       end
   end, mkState w' (sent s ++ [token_request])).
Proof.
  unfold _amadeus_token, bind, send. simpl.
  destruct (token_service _ (world s)) as [[r|] w']; [|reflexivity].
  unfold json_of. destruct (json r) as [body|]; simpl; [|reflexivity].
  unfold subscript. destruct (body !! "access_token"); reflexivity.
Qed.

End MonadFacts.

Section LoopFacts.
Context `{Wd : World}.

Lemma item_of_mono rates rates' o n :
  rates ⊆ rates' -> item_of rates o = Some n -> item_of rates' o = Some n.
Proof.
  unfold item_of. intros Hsub.
  destruct (first_segment o); [|discriminate].
  destruct (FloatOfStr.float_of_str _); [|discriminate].
  destruct (rates !! currency (price o)) as [r|] eqn:E; [|discriminate].
  now rewrite (lookup_weaken _ _ _ _ E Hsub).
Qed.

(** One iteration that completes: the element appended, and the cache
    either left as it is or extended by the rate just fetched. *)
Lemma offer_body_ok_inv leg rates result o s rates' result' s' :
  offer_body leg (rates, result) o s = (Ok (rates', result'), s') ->
  exists l n,
    result !! leg = Some l /\ item_of rates' o = Some n
    /\ result' = <[leg := l ++ [n]]> result
    /\ (is_Some (rates !! currency (price o)) /\ rates' = rates /\ s' = s
        \/ rates !! currency (price o) = None
           /\ exists r, _get_rate (currency (price o)) s = (Ok r, s')
                        /\ rates' = <[currency (price o) := r]> rates).
Proof.
  unfold offer_body. intros H.
  apply bind_ok_inv in H as (rates1 & s1 & Hc & H).
  apply bind_ok_inv in H as (it & s2 & Hit & H).
  apply of_option_ok_inv in Hit as [Hit ->].
  apply bind_ok_inv in H as (seg & s2 & Hseg & H).
  apply of_option_ok_inv in Hseg as [Hseg ->].
  apply bind_ok_inv in H as (l & s2 & Hl & H).
  apply of_option_ok_inv in Hl as [Hl ->].
  apply bind_ok_inv in H as (total & s2 & Ht & H).
  apply of_option_ok_inv in Ht as [Ht ->].
  apply bind_ok_inv in H as (rate & s2 & Hr & H).
  apply of_option_ok_inv in Hr as [Hr ->].
  apply ret_inv in H as [H ->]. injection H as -> ->.
  exists l. eexists. split; [exact Hl|]. split; [|split; [reflexivity|]].
  - unfold item_of, first_segment. rewrite Hit, Hseg, Ht, Hr. reflexivity.
  - destruct (rates !! currency (price o)) as [r0|] eqn:E.
    + apply ret_inv in Hc as [Hc ->]. injection Hc as ->. left. eauto.
    + right. split; [reflexivity|].
      apply bind_ok_inv in Hc as (r & s2 & Hg & Hc).
      apply ret_inv in Hc as [Hc ->]. injection Hc as ->. eauto.
Qed.

(** An iteration completes, in the same state, when the currency is in
    the cache, the offer has a first segment and its total is a number:
    no carrier code makes it raise. *)
Lemma offer_body_cached leg rates result o s l n :
  result !! leg = Some l ->
  item_of rates o = Some n ->
  offer_body leg (rates, result) o s = (Ok (rates, <[leg := l ++ [n]]> result), s).
Proof.
  unfold item_of, first_segment. intros Hl.
  destruct (itineraries o) as [|itinerary its] eqn:Ei; [discriminate|].
  cbn [head].
  destruct (segments itinerary) as [|seg segs] eqn:Es; [discriminate|].
  cbn [head].
  destruct (FloatOfStr.float_of_str _) as [total|] eqn:Et; [|discriminate].
  destruct (rates !! currency (price o)) as [rate|] eqn:Er; [|discriminate].
  intros H. injection H as <-.
  unfold offer_body, bind, first, subscript, py_float, of_option, ret.
  rewrite Er, Ei. cbn [head]. rewrite Es. cbn [head]. rewrite Hl, Et, Er.
  reflexivity.
Qed.

(** What one iteration adds to the log, however it ends. *)
Lemma offer_body_log leg rates result o s res s' :
  offer_body leg (rates, result) o s = (res, s') ->
  is_Some (rates !! currency (price o)) /\ s' = s
  \/ rates !! currency (price o) = None
     /\ sent s' = sent s ++ [rate_request (currency (price o))].
Proof.
  unfold offer_body. intros H.
  assert (pure : forall rates1 s1 r1 s2,
    (itinerary <- first (itineraries o) ;;
     seg <- first (segments itinerary) ;;
     leg0 <- subscript result leg ;;
     total <- py_float (grandTotal (price o)) ;;
     rate <- subscript rates1 (currency (price o)) ;;
     ret (rates1,
          <[leg := leg0 ++
             [{| company := default (carrierCode seg) (companies !! carrierCode seg);
                 departure_time := at_ (departure seg);
                 arrival_time := at_ (arrival seg);
                 stops := numberOfStops seg;
                 seats_remaining := numberOfBookableSeats o;
                 price_brl := PyFloat.round2 (PyFloat.mul total rate) |}]]> result)) s1
    = (r1, s2) -> s2 = s1).
  { intros rates1 s1 r1 s2 Hp.
    repeat (apply bind_inv in Hp as [(? & ? & Hq & Hp)|(? & Hq & _)];
            [apply of_option_inv in Hq as [-> _]
            |now apply of_option_inv in Hq as [-> _]]).
    now apply ret_inv in Hp as [_ ->]. }
  apply bind_inv in H as [(rates1 & s1 & Hc & H)|(e & Hc & _)].
  - apply pure in H as ->.
    destruct (rates !! currency (price o)) as [r0|] eqn:E.
    + apply ret_inv in Hc as [_ ->]. left. eauto.
    + right. split; [reflexivity|].
      apply bind_ok_inv in Hc as (r & s2 & Hg & Hc).
      apply ret_inv in Hc as [_ ->]. eapply _get_rate_log; eauto.
  - destruct (rates !! currency (price o)) as [r0|] eqn:E.
    + apply ret_inv in Hc as [Hc _]. discriminate.
    + right. split; [reflexivity|].
      apply bind_inv in Hc as [(r & s2 & Hg & Hc)|(e' & Hg & _)].
      * apply ret_inv in Hc as [_ ->]. eapply _get_rate_log; eauto.
      * eapply _get_rate_log; eauto.
Qed.

(** The inner loop, when it completes. *)
Lemma for_offers_ok leg offers :
  forall rates result s rates' result' s' l,
  for_each offers (offer_body leg) (rates, result) s = (Ok (rates', result'), s') ->
  result !! leg = Some l ->
  exists items,
    Forall2 (fun o n => item_of rates' o = Some n) offers items
    /\ result' = <[leg := l ++ items]> result
    /\ rates ⊆ rates'.
Proof.
  induction offers as [|o offers IH]; intros rates result s rates' result' s' l H Hl.
  - apply ret_inv in H as [H ->]. injection H as -> ->.
    exists []. split; [constructor|]. split; [|reflexivity].
    rewrite app_nil_r. symmetry. now apply insert_id.
  - simpl in H. apply bind_ok_inv in H as ([rates1 result1] & s1 & H1 & H).
    apply offer_body_ok_inv in H1 as (l0 & n & Hl0 & Hn & -> & Hc).
    rewrite Hl in Hl0. injection Hl0 as <-.
    eapply IH in H as (items & HF & -> & Hsub);
      [|apply lookup_insert_eq].
    assert (Hsub1 : rates ⊆ rates1).
    { destruct Hc as [(_ & -> & _)|(E & r & _ & ->)]; [reflexivity|].
      now apply insert_subseteq. }
    exists (n :: items). split; [|split].
    + constructor; [|exact HF]. eapply item_of_mono; eauto.
    + rewrite insert_insert_eq. now rewrite <- app_assoc.
    + now transitivity rates1.
Qed.

Lemma sort_leg_ok_inv leg rates result s rates' result' s' :
  sort_leg leg (rates, result) s = (Ok (rates', result'), s') ->
  exists l, result !! leg = Some l /\ rates' = rates /\ s' = s
    /\ result' = <[leg := PySort.sort price_brl PyFloat.ltb l]> result.
Proof.
  unfold sort_leg. intros H.
  apply bind_ok_inv in H as (l & s1 & Hl & H).
  apply of_option_ok_inv in Hl as [Hl ->].
  apply ret_inv in H as [H ->]. injection H as -> ->. eauto.
Qed.

Lemma sort_leg_pure leg v s r s' : sort_leg leg v s = (r, s') -> s' = s.
Proof.
  destruct v as [rates result]. unfold sort_leg. intros H.
  apply bind_inv in H as [(? & ? & Hq & H)|(? & Hq & _)].
  - apply of_option_inv in Hq as [-> _]. now apply ret_inv in H as [_ ->].
  - now apply of_option_inv in Hq as [-> _].
Qed.

(** One leg: its array was empty, it receives the elements of the offers
    in the provider's order, and is then sorted. *)
Lemma leg_body_ok leg offers rates result s rates' result' s' :
  leg_body (rates, result) (leg, offers) s = (Ok (rates', result'), s') ->
  result !! leg = Some [] ->
  exists items,
    Forall2 (fun o n => item_of rates' o = Some n) offers items
    /\ result' = <[leg := PySort.sort price_brl PyFloat.ltb items]> result
    /\ rates ⊆ rates'.
Proof.
  unfold leg_body. intros H Hl.
  apply bind_ok_inv in H as ([rates1 result1] & s1 & H1 & H).
  eapply for_offers_ok in H1 as (items & HF & Hres & Hsub); [|exact Hl].
  subst result1.
  apply sort_leg_ok_inv in H as (l & Hl' & Hr' & Hs' & Hres). subst.
  rewrite lookup_insert_eq in Hl'. injection Hl' as <-.
  exists items. simpl. rewrite insert_insert_eq. auto.
Qed.

(** Both legs. *)
Lemma normalize_and_rank_ok out inb s rates result s' :
  normalize_and_rank [("outbound", out); ("return", inb)] s
    = (Ok (rates, result), s') ->
  exists items_out items_in,
    Forall2 (fun o n => item_of rates o = Some n) out items_out
    /\ Forall2 (fun o n => item_of rates o = Some n) inb items_in
    /\ result = {[ "outbound" := PySort.sort price_brl PyFloat.ltb items_out;
                   "return" := PySort.sort price_brl PyFloat.ltb items_in ]}.
Proof.
  unfold normalize_and_rank. cbn [for_each]. intros H.
  apply bind_ok_inv in H as ([rates1 result1] & s1 & H1 & H).
  apply bind_ok_inv in H as ([rates2 result2] & s2 & H2 & H).
  apply ret_inv in H as [H ->]. injection H as -> ->.
  apply leg_body_ok in H1 as (items_out & HF1 & Hres1 & Hsub1); [|reflexivity].
  subst result1.
  apply leg_body_ok in H2 as (items_in & HF2 & Hres2 & Hsub2); [|reflexivity].
  subst result2.
  exists items_out, items_in. split; [|split; [exact HF2|]].
  - eapply Forall2_impl; [exact HF1|]. intros o n Hn. eapply item_of_mono; eauto.
  - apply map_eq. intros k.
    destruct (decide (k = "return")) as [->|Hr]; [reflexivity|].
    destruct (decide (k = "outbound")) as [->|Ho]; [reflexivity|].
    rewrite !lookup_insert_ne by done.
    rewrite !lookup_singleton_ne by done. reflexivity.
Qed.

End LoopFacts.

Section LogFacts.
Context `{Wd : World}.

Lemma rate_lookups_app l1 l2 :
  rate_lookups (l1 ++ l2) = rate_lookups l1 ++ rate_lookups l2.
Proof. unfold rate_lookups. apply omap_app. Qed.

Lemma rate_lookups_rate l cur :
  rate_lookups (l ++ [rate_request cur]) = rate_lookups l ++ [cur].
Proof. now rewrite rate_lookups_app. Qed.

Lemma rate_lookups_token l : rate_lookups (l ++ [token_request]) = rate_lookups l.
Proof. rewrite rate_lookups_app. apply app_nil_r. Qed.

Lemma rate_lookups_search l token origin dest date :
  rate_lookups (l ++ [search_request token origin dest date]) = rate_lookups l.
Proof. rewrite rate_lookups_app. apply app_nil_r. Qed.

Lemma searches_app l1 l2 : searches (l1 ++ l2) = searches l1 ++ searches l2.
Proof. apply List.filter_app. Qed.

Lemma searches_rate l cur : searches (l ++ [rate_request cur]) = searches l.
Proof. rewrite searches_app. apply app_nil_r. Qed.

Lemma searches_token l : searches (l ++ [token_request]) = searches l.
Proof. rewrite searches_app. apply app_nil_r. Qed.

Lemma searches_search l token origin dest date :
  searches (l ++ [search_request token origin dest date])
  = searches l ++ [search_request token origin dest date].
Proof. now rewrite searches_app. Qed.

Lemma cache_inv_empty log : rate_lookups log = [] -> cache_inv ∅ log.
Proof.
  intros E. unfold cache_inv. rewrite E. split; [constructor|].
  intros c Hc. inversion Hc.
Qed.

(** One completed iteration keeps the invariant. *)
Lemma offer_body_inv leg rates result o s rates' result' s' :
  offer_body leg (rates, result) o s = (Ok (rates', result'), s') ->
  cache_inv rates (sent s) -> cache_inv rates' (sent s').
Proof.
  intros H (Hnd & Hin).
  apply offer_body_ok_inv in H as (l & n & _ & _ & _ & Hc).
  destruct Hc as [(_ & -> & ->)|(E & r & Hg & ->)]; [now repeat split|].
  pose proof (_get_rate_log _ _ _ _ Hg) as Hlog.
  unfold cache_inv. rewrite Hlog, rate_lookups_rate.
  split.
  - apply NoDup_app. split; [exact Hnd|]. split; [|apply NoDup_singleton].
    intros c Hc1 Hc2. apply list_elem_of_singleton in Hc2 as ->.
    apply Hin in Hc1 as [x Hx]. congruence.
  - intros c Hc. apply elem_of_app in Hc as [Hc|Hc].
    + destruct (decide (c = currency (price o))) as [->|Hne].
      * rewrite lookup_insert_eq. eauto.
      * rewrite lookup_insert_ne by done. auto.
    + apply list_elem_of_singleton in Hc as ->. rewrite lookup_insert_eq. eauto.
Qed.

(** The inner loop, however it ends. *)
Lemma for_offers_inv leg offers :
  forall rates result s res s',
  for_each offers (offer_body leg) (rates, result) s = (res, s') ->
  cache_inv rates (sent s) ->
  NoDup (rate_lookups (sent s'))
  /\ sent s `prefix_of` sent s'
  /\ searches (sent s') = searches (sent s)
  /\ (forall c, c ∈ rate_lookups (sent s') ->
        c ∈ rate_lookups (sent s) \/ c ∈ map (fun o => currency (price o)) offers)
  /\ (forall rates' result', res = Ok (rates', result') ->
        cache_inv rates' (sent s') /\ rates ⊆ rates').
Proof.
  induction offers as [|o offers IH]; intros rates result s res s' H Hinv.
  - apply ret_inv in H as [-> ->].
    split; [apply Hinv|]. split; [reflexivity|]. split; [reflexivity|].
    split; [auto|]. intros rates' result' E. injection E as <- <-. now split.
  - cbn [for_each] in H.
    pose proof Hinv as (Hnd & Hin).
    apply bind_inv in H as [([rates1 result1] & s1 & H1 & H)|(e & H1 & ->)].
    + pose proof (offer_body_inv _ _ _ _ _ _ _ _ H1 Hinv) as Hinv1.
      pose proof (offer_body_log _ _ _ _ _ _ _ H1) as Hlog.
      apply offer_body_ok_inv in H1 as (_ & _ & _ & _ & _ & Hc).
      assert (Hsub : rates ⊆ rates1).
      { destruct Hc as [(_ & -> & _)|(E & r & _ & ->)]; [reflexivity|].
        now apply insert_subseteq. }
      apply IH in H as (Hnd' & Hp' & Hs' & Hc' & Hok'); [|exact Hinv1].
      split; [exact Hnd'|].
      destruct Hlog as [(_ & ->)|(E & Hlog)].
      * split; [exact Hp'|]. split; [exact Hs'|]. split.
        -- intros c Hcin. apply Hc' in Hcin as [?|?]; [now left|right].
           cbn [map]. now right.
        -- intros rates' result' Eq. apply Hok' in Eq as [? ?].
           split; [assumption|]. now transitivity rates1.
      * split; [|split; [|split]].
        -- transitivity (sent s1); [|exact Hp']. rewrite Hlog. now apply prefix_app_r.
        -- rewrite Hs', Hlog. apply searches_rate.
        -- intros c Hcin. apply Hc' in Hcin as [Hcin|?].
           ++ rewrite Hlog, rate_lookups_rate in Hcin.
              apply elem_of_app in Hcin as [?|Hcin]; [now left|right].
              apply list_elem_of_singleton in Hcin as ->. cbn [map]. now left.
           ++ right. cbn [map]. now right.
        -- intros rates' result' Eq. apply Hok' in Eq as [? ?].
           split; [assumption|]. now transitivity rates1.
    + pose proof (offer_body_log _ _ _ _ _ _ _ H1) as Hlog.
      destruct Hlog as [(_ & ->)|(E & Hlog)].
      * split; [exact Hnd|]. split; [reflexivity|]. split; [reflexivity|].
        split; [auto|]. intros ? ? Eq. discriminate.
      * rewrite Hlog, rate_lookups_rate, searches_rate.
        split; [|split; [|split; [|split]]].
        -- apply NoDup_app. split; [exact Hnd|]. split; [|apply NoDup_singleton].
           intros c Hc1 Hc2. apply list_elem_of_singleton in Hc2 as ->.
           apply Hin in Hc1 as [x Hx]. congruence.
        -- now apply prefix_app_r.
        -- reflexivity.
        -- intros c Hcin. apply elem_of_app in Hcin as [?|Hcin]; [now left|right].
           apply list_elem_of_singleton in Hcin as ->. cbn [map]. now left.
        -- intros ? ? Eq. discriminate.
Qed.

(** The outer loop, however it ends. *)
Lemma for_legs_inv legs :
  forall v s res s',
  for_each legs leg_body v s = (res, s') ->
  cache_inv (fst v) (sent s) ->
  NoDup (rate_lookups (sent s'))
  /\ sent s `prefix_of` sent s'
  /\ searches (sent s') = searches (sent s)
  /\ (forall c, c ∈ rate_lookups (sent s') ->
        c ∈ rate_lookups (sent s) \/ c ∈ currencies legs)
  /\ (forall v', res = Ok v' -> cache_inv (fst v') (sent s') /\ fst v ⊆ fst v').
Proof.
  induction legs as [|[leg offers] legs IH]; intros [rates result] s res s' H Hinv.
  - apply ret_inv in H as [-> ->].
    split; [apply Hinv|]. split; [reflexivity|]. split; [reflexivity|].
    split; [auto|]. intros v' E. injection E as <-. now split.
  - cbn [for_each] in H. unfold currencies. cbn [map concat snd].
    apply bind_inv in H as [([rates1 result1] & s1 & H1 & H)|(e & H1 & ->)].
    + unfold leg_body in H1.
      apply bind_ok_inv in H1 as ([rates0 result0] & s0 & H0 & H1).
      pose proof (sort_leg_ok_inv _ _ _ _ _ _ _ H1) as (_ & _ & -> & -> & _).
      apply for_offers_inv in H0 as (Hnd0 & Hp0 & Hs0 & Hc0 & Hok0); [|exact Hinv].
      destruct (Hok0 _ _ eq_refl) as [Hinv1 Hsub1].
      apply IH in H as (Hnd' & Hp' & Hs' & Hc' & Hok'); [|exact Hinv1].
      split; [exact Hnd'|]. split; [now transitivity (sent s0)|].
      split; [now rewrite Hs'|]. split.
      * intros c Hcin. apply Hc' in Hcin as [Hcin|Hcin].
        -- apply Hc0 in Hcin as [?|?]; [now left|right].
           apply elem_of_app. now left.
        -- right. apply elem_of_app. now right.
      * intros v' Eq. apply Hok' in Eq as [? ?]. split; [assumption|].
        cbn [fst] in *. now transitivity rates0.
    + unfold leg_body in H1.
      apply bind_inv in H1 as [([rates0 result0] & s0 & H0 & H1)|(e0 & H0 & _)].
      * pose proof (sort_leg_pure _ _ _ _ _ H1) as ->.
        apply for_offers_inv in H0 as (Hnd0 & Hp0 & Hs0 & Hc0 & _); [|exact Hinv].
        split; [exact Hnd0|]. split; [exact Hp0|]. split; [exact Hs0|]. split.
        -- intros c Hcin. apply Hc0 in Hcin as [?|?]; [now left|right].
           apply elem_of_app. now left.
        -- intros ? Eq. discriminate.
      * apply for_offers_inv in H0 as (Hnd0 & Hp0 & Hs0 & Hc0 & _); [|exact Hinv].
        split; [exact Hnd0|]. split; [exact Hp0|]. split; [exact Hs0|]. split.
        -- intros c Hcin. apply Hc0 in Hcin as [?|?]; [now left|right].
           apply elem_of_app. now left.
        -- intros ? Eq. discriminate.
Qed.

End LogFacts.

Section RunFacts.
Context `{Wd : World}.

(** The fetching phase in one equation: the order of its steps and the
    state in which each failure leaves the invocation. *)
Lemma fetch_legs_eq origin destination departure_date return_date s :
  fetch_legs origin destination departure_date return_date s =
  match _amadeus_token s with
  | (Raise e, s1) => (Raise e, s1)
  | (Ok token, s1) =>
      match PyDate.strptime departure_date with
      | None => (Raise ValueError, s1)
      | Some dt1 =>
          match _search_leg token origin destination (PyDate.strftime pad_year dt1) s1 with
          | (Raise e, s2) => (Raise e, s2)
          | (Ok outbound, s2) =>
              match PyDate.strptime return_date with
              | None => (Raise ValueError, s2)
              | Some dt2 =>
                  match _search_leg token destination origin (PyDate.strftime pad_year dt2) s2 with
                  | (Raise e, s3) => (Raise e, s3)
                  | (Ok inbound, s3) =>
                      (Ok [("outbound", outbound); ("return", inbound)], s3)
                  end
              end
          end
      end
  end.
Proof.
  unfold fetch_legs, bind.
  destruct (_amadeus_token s) as [[token|e] s1]; [|reflexivity].
  rewrite _to_iso_eq. destruct (PyDate.strptime departure_date) as [dt1|]; [|reflexivity].
  destruct (_search_leg _ _ _ _ s1) as [[out|e] s2]; [|reflexivity].
  rewrite _to_iso_eq. destruct (PyDate.strptime return_date) as [dt2|]; [|reflexivity].
  destruct (_search_leg _ _ _ _ s2) as [[inb|e] s3]; reflexivity.
Qed.

Lemma fetch_legs_ok_inv origin destination departure_date return_date s legs s3 :
  fetch_legs origin destination departure_date return_date s = (Ok legs, s3) ->
  exists token dt1 dt2 out inb s1 s2,
    _amadeus_token s = (Ok token, s1)
    /\ PyDate.strptime departure_date = Some dt1
    /\ _search_leg token origin destination (PyDate.strftime pad_year dt1) s1 = (Ok out, s2)
    /\ PyDate.strptime return_date = Some dt2
    /\ _search_leg token destination origin (PyDate.strftime pad_year dt2) s2 = (Ok inb, s3)
    /\ legs = [("outbound", out); ("return", inb)].
Proof.
  rewrite fetch_legs_eq.
  destruct (_amadeus_token s) as [[token|e] s1]; [|discriminate].
  destruct (PyDate.strptime departure_date) as [dt1|]; [|discriminate].
  destruct (_search_leg _ _ _ _ s1) as [[out|e] s2] eqn:E1; [|discriminate].
  destruct (PyDate.strptime return_date) as [dt2|]; [|discriminate].
  destruct (_search_leg _ _ _ _ s2) as [[inb|e] s3'] eqn:E2; [|discriminate].
  intros H. injection H as <- <-.
  exists token, dt1, dt2, out, inb, s1, s2. repeat split; assumption.
Qed.

(** The fetching phase asks for no rate, and at most twice for offers. *)
Lemma fetch_legs_log origin destination departure_date return_date s res s' :
  fetch_legs origin destination departure_date return_date s = (res, s') ->
  rate_lookups (sent s') = rate_lookups (sent s)
  /\ sent s `prefix_of` sent s'
  /\ (length (searches (sent s')) <= length (searches (sent s)) + 2)%nat.
Proof.
  rewrite fetch_legs_eq.
  destruct (_amadeus_token s) as [[token|e] s1] eqn:E0;
    pose proof (_amadeus_token_log _ _ _ E0) as L0.
  2:{ intros H. injection H as _ <-. rewrite L0, rate_lookups_token, searches_token.
      split; [reflexivity|]. split; [now apply prefix_app_r | lia]. }
  destruct (PyDate.strptime departure_date) as [dt1|].
  2:{ intros H. injection H as _ <-. rewrite L0, rate_lookups_token, searches_token.
      split; [reflexivity|]. split; [now apply prefix_app_r | lia]. }
  destruct (_search_leg _ _ _ _ s1) as [[out|e] s2] eqn:E1;
    pose proof (_search_leg_log _ _ _ _ _ _ _ E1) as L1.
  2:{ intros H. injection H as _ <-.
      rewrite L1, L0, rate_lookups_search, rate_lookups_token,
        searches_search, searches_token, length_app.
      split; [reflexivity|]. split; [|simpl; lia].
      rewrite <- app_assoc. now apply prefix_app_r. }
  destruct (PyDate.strptime return_date) as [dt2|].
  2:{ intros H. injection H as _ <-.
      rewrite L1, L0, rate_lookups_search, rate_lookups_token,
        searches_search, searches_token, length_app.
      split; [reflexivity|]. split; [|simpl; lia].
      rewrite <- app_assoc. now apply prefix_app_r. }
  destruct (_search_leg _ _ _ _ s2) as [[inb|e] s3] eqn:E2;
    pose proof (_search_leg_log _ _ _ _ _ _ _ E2) as L2;
    intros H; injection H as _ <-;
    rewrite L2, L1, L0, !rate_lookups_search, rate_lookups_token,
      !searches_search, searches_token, !length_app;
    (split; [reflexivity|]; split; [|simpl; lia]);
    rewrite <- !app_assoc; now apply prefix_app_r.
Qed.

(** The two phases of [_run]. *)
Lemma _run_inv origin destination departure_date return_date s res s' :
  _run origin destination departure_date return_date s = (res, s') ->
  (exists e, fetch_legs origin destination departure_date return_date s = (Raise e, s')
             /\ res = Raise e)
  \/ (exists legs s1 r1,
        fetch_legs origin destination departure_date return_date s = (Ok legs, s1)
        /\ normalize_and_rank legs s1 = (r1, s')
        /\ res = match r1 with Ok v => Ok (snd v) | Raise e => Raise e end).
Proof.
  unfold _run. intros H.
  apply bind_inv in H as [(legs & s1 & H1 & H)|(e & H1 & ->)]; [|left; eauto].
  right. exists legs, s1.
  apply bind_inv in H as [(v & s2 & H2 & H)|(e & H2 & ->)].
  - apply ret_inv in H as [-> ->]. exists (Ok v). auto.
  - exists (Raise e). auto.
Qed.

(** A completed invocation: what each leg of the result is. *)
Lemma _run_ok origin destination departure_date return_date s legs s1 result s' :
  fetch_legs origin destination departure_date return_date s = (Ok legs, s1) ->
  _run origin destination departure_date return_date s = (Ok result, s') ->
  exists rates,
    normalize_and_rank legs s1 = (Ok (rates, result), s')
    /\ forall leg offers, (leg, offers) ∈ legs ->
       exists items,
         Forall2 (fun o n => item_of rates o = Some n) offers items
         /\ result !! leg = Some (PySort.sort price_brl PyFloat.ltb items).
Proof.
  intros Hf H.
  apply _run_inv in H as [(e & Hf' & _)|(legs' & s1' & r1 & Hf' & Hn & Hr)];
    rewrite Hf in Hf'; [discriminate|].
  injection Hf' as <- <-.
  destruct r1 as [[rates result']|e]; [|discriminate].
  injection Hr as ->. exists rates. split; [exact Hn|].
  apply fetch_legs_ok_inv in Hf as (_ & _ & _ & out & inb & _ & _ & _ & _ & _ & _ & _ & ->).
  apply normalize_and_rank_ok in Hn as (items_out & items_in & H1 & H2 & ->).
  intros leg offers Hin.
  apply elem_of_cons in Hin as [Hin|Hin]; [|apply list_elem_of_singleton in Hin];
    injection Hin as -> ->; eauto.
Qed.

(** The loops start from an empty cache and a log without rate request. *)
Lemma normalize_and_rank_inv legs s1 r1 s' :
  rate_lookups (sent s1) = [] ->
  normalize_and_rank legs s1 = (r1, s') ->
  NoDup (rate_lookups (sent s'))
  /\ sent s1 `prefix_of` sent s'
  /\ searches (sent s') = searches (sent s1)
  /\ (forall c, c ∈ rate_lookups (sent s') -> c ∈ currencies legs)
  /\ (forall v, r1 = Ok v -> cache_inv (fst v) (sent s')).
Proof.
  intros E H. unfold normalize_and_rank in H.
  apply for_legs_inv in H as (Hnd & Hp & Hs & Hc & Hok);
    [|now apply cache_inv_empty].
  split; [exact Hnd|]. split; [exact Hp|]. split; [exact Hs|]. split.
  - intros c Hin. apply Hc in Hin as [Hin|Hin]; [|exact Hin].
    rewrite E in Hin. inversion Hin.
  - intros v Ev. now apply Hok in Ev as [? _].
Qed.

Lemma fetch_legs_start origin destination departure_date return_date w res s1 :
  fetch_legs origin destination departure_date return_date (start w) = (res, s1) ->
  rate_lookups (sent s1) = [].
Proof. intros H. now apply fetch_legs_log in H as (-> & _). Qed.

(** The log of an invocation, however it ends. *)
Lemma _run_log origin destination departure_date return_date w res s' :
  _run origin destination departure_date return_date (start w) = (res, s') ->
  NoDup (rate_lookups (sent s'))
  /\ (length (searches (sent s')) <= 2)%nat
  /\ (forall legs s1,
        fetch_legs origin destination departure_date return_date (start w) = (Ok legs, s1) ->
        searches (sent s') = searches (sent s1)
        /\ forall c, c ∈ rate_lookups (sent s') -> c ∈ currencies legs).
Proof.
  intros H.
  apply _run_inv in H as [(e & Hf & _)|(legs & s1 & r1 & Hf & Hn & _)].
  - pose proof (fetch_legs_log _ _ _ _ _ _ _ Hf) as (Hr & _ & Hl).
    rewrite Hr. split; [constructor|]. split; [exact Hl|].
    intros legs s1 Hf'. rewrite Hf in Hf'. discriminate.
  - pose proof (fetch_legs_log _ _ _ _ _ _ _ Hf) as (_ & _ & Hl).
    apply normalize_and_rank_inv in Hn as (Hnd & _ & Hs & Hc & _);
      [|eapply fetch_legs_start; eauto].
    split; [exact Hnd|]. split; [now rewrite Hs|].
    intros legs' s1' Hf'. rewrite Hf in Hf'. injection Hf' as <- <-. auto.
Qed.

End RunFacts.

(** ** Prices: order, sort, elements *)

Section PriceFacts.
Context `{Wd : World}.

Lemma price_sort_perm items : Permutation (price_sort items) items.
Proof. apply PySortFacts.sort_perm. Qed.

Lemma price_sort_sorted items :
  no_nan_price items -> sorted_by_price (price_sort items).
Proof.
  intros H.
  exact (PySortFacts.sort_sorted price_brl PyFloat.ltb PyFloat.leb
           (fun k => PyFloat.is_nan k = false)
           PyFloatFacts.ltb_leb PyFloatFacts.leb_total PyFloatFacts.leb_trans
           items H).
Qed.

Lemma price_sort_stable p items : priced p (price_sort items) = priced p items.
Proof.
  exact (PySortFacts.sort_stable price_brl PyFloat.ltb PyFloat.eqb
           PyFloatFacts.ltb_not_eqb p items).
Qed.

(** Any list that is a stable sort of [items] is the one of the model. *)
Lemma price_sort_unique items l :
  no_nan_price items ->
  Permutation l items ->
  StronglySorted price_le l ->
  (forall p, priced p l = priced p items) ->
  l = price_sort items.
Proof.
  intros Hn Hp Hs Hst.
  exact (PySortFacts.stable_sort_unique price_brl PyFloat.ltb PyFloat.leb PyFloat.eqb
           (fun k => PyFloat.is_nan k = false)
           PyFloatFacts.ltb_leb PyFloatFacts.leb_total PyFloatFacts.leb_trans
           PyFloatFacts.ltb_not_eqb PyFloatFacts.eqb_leb
           items l Hn Hp Hs Hst).
Qed.

Lemma item_of_inv rates o n :
  item_of rates o = Some n ->
  exists seg total rate,
    first_segment o = Some seg
    /\ FloatOfStr.float_of_str (grandTotal (price o)) = Some total
    /\ rates !! currency (price o) = Some rate
    /\ n = {| company := display_name (carrierCode seg);
              departure_time := at_ (departure seg);
              arrival_time := at_ (arrival seg);
              stops := numberOfStops seg;
              seats_remaining := numberOfBookableSeats o;
              price_brl := PyFloat.round2 (PyFloat.mul total rate) |}.
Proof.
  unfold item_of.
  destruct (first_segment o) as [seg|]; [|discriminate].
  destruct (FloatOfStr.float_of_str _) as [total|]; [|discriminate].
  destruct (rates !! currency (price o)) as [rate|]; [|discriminate].
  intros H. injection H as <-. eauto 8.
Qed.

Lemma display_name_other code :
  code <> "LA" -> code <> "G3" -> code <> "AD" -> code <> "2Z" ->
  display_name code = code.
Proof.
  intros H1 H2 H3 H4. unfold display_name, companies.
  rewrite !lookup_insert_ne by done. now rewrite lookup_singleton_ne by done.
Qed.

Lemma display_name_nonempty code : code <> "" -> display_name code <> "".
Proof.
  intros H.
  destruct (decide (code = "LA")) as [->|H1]; [discriminate|].
  destruct (decide (code = "G3")) as [->|H2]; [discriminate|].
  destruct (decide (code = "AD")) as [->|H3]; [discriminate|].
  destruct (decide (code = "2Z")) as [->|H4]; [discriminate|].
  now rewrite display_name_other.
Qed.

End PriceFacts.

(** ** The rates of the cache are those that the requests returned *)

Section RateFacts.
Context `{Wd : World}.

Lemma state_after_app w0 log rq :
  state_after w0 (log ++ [rq])
  = mkState (answered (world (state_after w0 log)) rq) (log ++ [rq]).
Proof. unfold state_after. now rewrite fold_left_app. Qed.

Lemma start_after w0 : start w0 = state_after w0 (sent (start w0)).
Proof. reflexivity. Qed.

(** A request that is sent takes the invocation to the next state. *)
Lemma send_after {T} (svc : Request -> W -> option (Response T) * W) rq w0 s r s' :
  (forall w, answered w rq = snd (svc rq w)) ->
  s = state_after w0 (sent s) ->
  send svc rq s = (r, s') ->
  s' = state_after w0 (sent s').
Proof.
  intros Hsvc Hs H. unfold send in H.
  destruct (svc rq (world s)) as [a w'] eqn:E.
  assert (s' = mkState w' (sent s ++ [rq])) as ->
    by (destruct a; now injection H as _ <-).
  cbn [sent]. rewrite state_after_app, <- Hs, Hsvc, E. reflexivity.
Qed.

Lemma _amadeus_token_after w0 s r s' :
  s = state_after w0 (sent s) ->
  _amadeus_token s = (r, s') -> s' = state_after w0 (sent s').
Proof.
  intros Hs H. unfold _amadeus_token in H.
  apply bind_inv in H as [(a & s1 & H1 & H2)|(e & H1 & _)].
  - apply read2_pure in H2 as ->. eapply send_after; eauto. reflexivity.
  - eapply send_after; eauto. reflexivity.
Qed.

Lemma _search_leg_after w0 token origin dest date s r s' :
  s = state_after w0 (sent s) ->
  _search_leg token origin dest date s = (r, s') -> s' = state_after w0 (sent s').
Proof.
  intros Hs H. unfold _search_leg in H.
  apply bind_inv in H as [(a & s1 & H1 & H2)|(e & H1 & _)].
  - apply read2_pure in H2 as ->. eapply send_after; eauto. reflexivity.
  - eapply send_after; eauto. reflexivity.
Qed.

Lemma _get_rate_after w0 cur s r s' :
  s = state_after w0 (sent s) ->
  _get_rate cur s = (r, s') -> s' = state_after w0 (sent s').
Proof.
  intros Hs H. unfold _get_rate in H.
  apply bind_inv in H as [(a & s1 & H1 & H2)|(e & H1 & _)].
  - assert (s' = s1) as ->.
    { apply bind_inv in H2 as [(b & s2 & H2 & H3)|(e & H2 & _)].
      - apply of_option_inv in H2 as [-> _].
        apply bind_inv in H3 as [(c & s3 & H3 & H4)|(e & H3 & _)].
        + apply of_option_inv in H3 as [-> _].
          now apply of_option_inv in H4 as [-> _].
        + now apply of_option_inv in H3 as [-> _].
      - now apply of_option_inv in H2 as [-> _]. }
    eapply send_after; eauto. reflexivity.
  - eapply send_after; eauto. reflexivity.
Qed.

Lemma fetch_legs_after w0 origin destination departure_date return_date s legs s' :
  s = state_after w0 (sent s) ->
  fetch_legs origin destination departure_date return_date s = (Ok legs, s') ->
  s' = state_after w0 (sent s').
Proof.
  intros Hs H.
  apply fetch_legs_ok_inv in H
    as (token & dt1 & dt2 & out & inb & s1 & s2 & H0 & _ & H1 & _ & H2 & _).
  apply (_amadeus_token_after w0) in H0; [|exact Hs].
  apply (_search_leg_after w0) in H1; [|exact H0].
  now apply (_search_leg_after w0) in H2.
Qed.

Lemma looked_up_mono w0 log log' cur rate :
  log `prefix_of` log' -> looked_up w0 log cur rate -> looked_up w0 log' cur rate.
Proof.
  intros Hp (before & s2 & Hb & Hg). exists before, s2.
  split; [now transitivity log|exact Hg].
Qed.

(** The log has the request for a currency once: the rate that it
    returned is determined. *)
Lemma looked_up_unique w0 log cur r r' :
  NoDup (rate_lookups log) ->
  looked_up w0 log cur r -> looked_up w0 log cur r' -> r = r'.
Proof.
  intros Hnd (b1 & s2 & P1 & G1) (b2 & s2' & P2 & G2).
  assert (forall b b' : list Request,
            (b ++ [rate_request cur]) `prefix_of` log ->
            (b' ++ [rate_request cur]) `prefix_of` log ->
            (b ++ [rate_request cur]) `prefix_of` (b' ++ [rate_request cur]) ->
            b = b') as Hsame.
  { intros b b' Pb Pb' [k Hk].
    destruct k as [|x k _] using rev_ind.
    - rewrite app_nil_r in Hk. now apply app_inj_tail in Hk as [-> _].
    - exfalso. rewrite !app_assoc in Hk. apply app_inj_tail in Hk as [-> <-].
      destruct Pb' as [rest ->].
      rewrite !rate_lookups_app in Hnd.
      change (rate_lookups [rate_request cur]) with [cur] in Hnd.
      rewrite <- !app_assoc in Hnd.
      apply NoDup_app in Hnd as (_ & _ & Hnd).
      apply NoDup_app in Hnd as (_ & Hnd & _).
      apply (Hnd cur); [apply list_elem_of_here|].
      apply elem_of_app. right. apply elem_of_app. left. apply list_elem_of_here. }
  assert (b1 = b2) as ->.
  { destruct (prefix_weak_total _ _ _ P1 P2) as [Hp|Hp].
    - now apply Hsame.
    - symmetry. now apply Hsame. }
  congruence.
Qed.

(** One completed iteration keeps the rates of the cache true. *)
Lemma offer_body_true w0 leg rates result o s rates' result' s' :
  offer_body leg (rates, result) o s = (Ok (rates', result'), s') ->
  true_rates w0 rates s -> true_rates w0 rates' s'.
Proof.
  intros H (Hs & Hup).
  apply offer_body_ok_inv in H as (l & n & _ & _ & _ & Hc).
  destruct Hc as [(_ & -> & ->)|(E & r & Hg & ->)]; [now split|].
  pose proof (_get_rate_log _ _ _ _ Hg) as Hlog.
  split; [eapply _get_rate_after; eauto|].
  intros c r0 Hr0.
  destruct (decide (c = currency (price o))) as [->|Hne].
  - rewrite lookup_insert_eq in Hr0. injection Hr0 as <-.
    exists (sent s), s'. split; [now rewrite Hlog|]. now rewrite <- Hs.
  - rewrite lookup_insert_ne in Hr0 by done.
    eapply looked_up_mono; [|eauto]. rewrite Hlog. now apply prefix_app_r.
Qed.

Lemma for_offers_true w0 leg offers :
  forall rates result s rates' result' s',
  for_each offers (offer_body leg) (rates, result) s = (Ok (rates', result'), s') ->
  true_rates w0 rates s -> true_rates w0 rates' s'.
Proof.
  induction offers as [|o offers IH]; intros rates result s rates' result' s' H Ht.
  - apply ret_inv in H as [H ->]. now injection H as <- <-.
  - cbn [for_each] in H.
    apply bind_ok_inv in H as ([rates1 result1] & s1 & H1 & H).
    eapply IH; [exact H|]. eapply offer_body_true; eauto.
Qed.

Lemma for_legs_true w0 legs :
  forall rates result s rates' result' s',
  for_each legs leg_body (rates, result) s = (Ok (rates', result'), s') ->
  true_rates w0 rates s -> true_rates w0 rates' s'.
Proof.
  induction legs as [|[leg offers] legs IH];
    intros rates result s rates' result' s' H Ht.
  - apply ret_inv in H as [H ->]. now injection H as <- <-.
  - cbn [for_each] in H.
    apply bind_ok_inv in H as ([rates1 result1] & s1 & H1 & H).
    eapply IH; [exact H|]. unfold leg_body in H1.
    apply bind_ok_inv in H1 as ([rates0 result0] & s0 & H0 & H1).
    apply sort_leg_ok_inv in H1 as (_ & _ & -> & -> & _).
    eapply for_offers_true; eauto.
Qed.

(** A leg of the model is a leg as [list.sort] leaves it. *)
Lemma price_sort_ranked items : ranked items (price_sort items).
Proof. split; [apply PySortFacts.sort_perm|reflexivity]. Qed.

(** A completed invocation: the final cache and each leg of the result. *)
Lemma _run_ok_cache origin destination departure_date return_date w legs s1 result s' :
  fetch_legs origin destination departure_date return_date (start w) = (Ok legs, s1) ->
  _run origin destination departure_date return_date (start w) = (Ok result, s') ->
  exists rates,
    (forall c r, rates !! c = Some r -> looked_up w (sent s') c r)
    /\ forall leg offers, (leg, offers) ∈ legs ->
       exists items,
         Forall2 (fun o n => item_of rates o = Some n) offers items
         /\ result !! leg = Some (PySort.sort price_brl PyFloat.ltb items).
Proof.
  intros Hf H.
  destruct (_run_ok _ _ _ _ _ _ _ _ _ Hf H) as (rates & Hn & Hlegs).
  exists rates. split; [|exact Hlegs].
  unfold normalize_and_rank in Hn.
  apply (for_legs_true w) in Hn as [_ Hup]; [exact Hup|].
  split; [eapply fetch_legs_after; eauto; apply start_after|].
  intros c r Hr. rewrite lookup_empty in Hr. discriminate.
Qed.

Lemma _run_ok_rates origin destination departure_date return_date w legs s1 result s' :
  fetch_legs origin destination departure_date return_date (start w) = (Ok legs, s1) ->
  _run origin destination departure_date return_date (start w) = (Ok result, s') ->
  exists rates,
    NoDup (rate_lookups (sent s'))
    /\ (forall c r, rates !! c = Some r -> looked_up w (sent s') c r)
    /\ forall leg offers, (leg, offers) ∈ legs ->
       exists items l,
         result !! leg = Some l /\ ranked items l
         /\ Forall2 (fun o n => item_of rates o = Some n) offers items.
Proof.
  intros Hf H.
  destruct (_run_ok_cache _ _ _ _ _ _ _ _ _ Hf H) as (rates & Hup & Hlegs).
  exists rates. split; [|split; [exact Hup|]].
  - now apply _run_log in H as (Hnd & _).
  - intros leg offers Hin. destruct (Hlegs leg offers Hin) as (items & HF & Hl).
    exists items, (price_sort items).
    split; [exact Hl|]. split; [apply price_sort_ranked|exact HF].
Qed.

(** A completed invocation: each leg of the result. *)
Lemma _run_ok_ranked origin destination departure_date return_date s legs s1 result s' :
  fetch_legs origin destination departure_date return_date s = (Ok legs, s1) ->
  _run origin destination departure_date return_date s = (Ok result, s') ->
  exists rates,
    forall leg offers, (leg, offers) ∈ legs ->
    exists items l,
      result !! leg = Some l /\ ranked items l
      /\ Forall2 (fun o n => item_of rates o = Some n) offers items.
Proof.
  intros Hf H.
  destruct (_run_ok _ _ _ _ _ _ _ _ _ Hf H) as (rates & _ & Hlegs).
  exists rates. intros leg offers Hin.
  destruct (Hlegs leg offers Hin) as (items & HF & Hl).
  exists items, (price_sort items).
  split; [exact Hl|]. split; [apply price_sort_ranked|exact HF].
Qed.

(** Changing the carrier code of an offer changes neither whether the
    iteration completes, nor the exception, nor the state it ends in. *)
Lemma offer_body_carrier code leg v o s :
  match offer_body leg v o s with
  | (Ok _, s') => exists v', offer_body leg v (with_carrier code o) s = (Ok v', s')
  | (Raise e, s') => offer_body leg v (with_carrier code o) s = (Raise e, s')
  end.
Proof.
  destruct v as [rates result]. unfold with_carrier.
  destruct (itineraries o) as [|it its] eqn:Ei.
  { destruct (offer_body leg (rates, result) o s) as [[v'|e] s']; eauto. }
  destruct (segments it) as [|seg segs] eqn:Es.
  { destruct (offer_body leg (rates, result) o s) as [[v'|e] s']; eauto. }
  unfold offer_body. cbn [price itineraries numberOfBookableSeats].
  set (M := match rates !! currency (price o) with
            | Some _ => ret rates
            | None => rate <- _get_rate (currency (price o));;
                      ret (<[currency (price o):=rate]> rates)
            end).
  unfold bind, first, subscript, py_float, of_option, ret, raise.
  destruct (M s) as [[rates1|e] s1]; [|reflexivity].
  rewrite Ei. cbn [head segments]. rewrite Es. cbn [head].
  destruct (result !! leg); [|reflexivity].
  destruct (FloatOfStr.float_of_str _); [|reflexivity].
  destruct (rates1 !! currency (price o)); [eauto|reflexivity].
Qed.

End RateFacts.

(** ** The claims *)

Section Claims.
Context `{Wd : World}.

(** C1, as amended. When none of the prices of a leg of the result is
    NaN, the leg is in non-decreasing order of [price_brl], and it is a
    stable sort of the elements of the offers that the provider delivered
    for the leg: with [items] the elements in the provider's order, the
    leg is a permutation of [items] in which the elements of any one price
    stand in their order in [items]. *)
Theorem leg_sorted_and_stable
    origin destination departure_date return_date w legs s1 result s' :
  fetch_legs origin destination departure_date return_date (start w) = (Ok legs, s1) ->
  _run origin destination departure_date return_date (start w) = (Ok result, s') ->
  forall leg offers l,
  (leg, offers) ∈ legs ->
  result !! leg = Some l ->
  no_nan_price l ->
  sorted_by_price l
  /\ exists rates items,
       Forall2 (fun o n => item_of rates o = Some n) offers items
       /\ Permutation l items
       /\ forall p, priced p l = priced p items.
Proof.
  intros Hf Hr leg offers l Hin Hl Hn.
  destruct (_run_ok _ _ _ _ _ _ _ _ _ Hf Hr) as (rates & _ & Hlegs).
  destruct (Hlegs leg offers Hin) as (items & HF & Hl').
  rewrite Hl in Hl'. injection Hl' as ->.
  assert (Hn' : no_nan_price items).
  { unfold no_nan_price in *. now rewrite <- (price_sort_perm items). }
  split; [now apply price_sort_sorted|].
  exists rates, items. split; [exact HF|]. split; [apply price_sort_perm|].
  intros p. apply price_sort_stable.
Qed.

(** C2. The provider delivers for a leg three offers of 200 USD, 150 EUR
    and 180 USD, in this order, and every lookup of the USD rate returns
    5.0 and of the EUR rate 5.5: the prices of their elements are 1000.00,
    825.00 and 900.00, and the leg of the result lists them as 825.00,
    900.00, 1000.00. *)
Theorem three_offer_scenario
    origin destination departure_date return_date w legs s1 result s' leg o1 o2 o3 :
  fetch_legs origin destination departure_date return_date (start w) = (Ok legs, s1) ->
  _run origin destination departure_date return_date (start w) = (Ok result, s') ->
  (leg, [o1; o2; o3]) ∈ legs ->
  currency (price o1) = "USD" ->
  FloatOfStr.float_of_str (grandTotal (price o1)) = Some (PyFloat.of_Z 200) ->
  currency (price o2) = "EUR" ->
  FloatOfStr.float_of_str (grandTotal (price o2)) = Some (PyFloat.of_Z 150) ->
  currency (price o3) = "USD" ->
  FloatOfStr.float_of_str (grandTotal (price o3)) = Some (PyFloat.of_Z 180) ->
  (forall s r s2, _get_rate "USD" s = (Ok r, s2) -> r = PyFloat.of_Z 5) ->
  (forall s r s2, _get_rate "EUR" s = (Ok r, s2) -> r = PyFloat.of_decimal false 55 (-1)) ->
  exists rates n1 n2 n3,
    item_of rates o1 = Some n1 /\ item_of rates o2 = Some n2
    /\ item_of rates o3 = Some n3
    /\ price_brl n1 = PyFloat.of_Z 1000
    /\ price_brl n2 = PyFloat.of_Z 825
    /\ price_brl n3 = PyFloat.of_Z 900
    /\ result !! leg = Some [n2; n3; n1].
Proof.
  intros Hf Hr Hin C1 T1 C2 T2 C3 T3 Husd Heur.
  destruct (_run_ok_cache _ _ _ _ _ _ _ _ _ Hf Hr) as (rates & Hup & Hlegs).
  destruct (Hlegs leg [o1; o2; o3] Hin) as (items & HF & Hl).
  apply Forall2_cons_inv_l in HF as (n1 & items1 & H1 & HF & ->).
  apply Forall2_cons_inv_l in HF as (n2 & items2 & H2 & HF & ->).
  apply Forall2_cons_inv_l in HF as (n3 & items3 & H3 & HF & ->).
  apply Forall2_nil_inv_l in HF as ->.
  exists rates, n1, n2, n3.
  split; [exact H1|]. split; [exact H2|]. split; [exact H3|].
  apply item_of_inv in H1 as (g1 & t1 & r1 & _ & T1' & R1 & E1).
  apply item_of_inv in H2 as (g2 & t2 & r2 & _ & T2' & R2 & E2).
  apply item_of_inv in H3 as (g3 & t3 & r3 & _ & T3' & R3 & E3).
  rewrite T1 in T1'. rewrite T2 in T2'. rewrite T3 in T3'.
  injection T1' as <-. injection T2' as <-. injection T3' as <-.
  rewrite C1 in R1. rewrite C2 in R2. rewrite C3 in R3.
  destruct (Hup _ _ R1) as (sa1 & sb1 & _ & G1). apply Husd in G1 as ->.
  destruct (Hup _ _ R2) as (sa2 & sb2 & _ & G2). apply Heur in G2 as ->.
  destruct (Hup _ _ R3) as (sa3 & sb3 & _ & G3). apply Husd in G3 as ->.
  assert (P1 : price_brl n1 = PyFloat.of_Z 1000) by (rewrite E1; reflexivity).
  assert (P2 : price_brl n2 = PyFloat.of_Z 825) by (rewrite E2; reflexivity).
  assert (P3 : price_brl n3 = PyFloat.of_Z 900) by (rewrite E3; reflexivity).
  split; [exact P1|]. split; [exact P2|]. split; [exact P3|].
  rewrite Hl. f_equal.
  repeat (cbn [PySort.sort PySort.insert]; rewrite ?P1, ?P2, ?P3;
          repeat match goal with
          | |- context [PyFloat.ltb ?a ?b] =>
              let v := eval vm_compute in (PyFloat.ltb a b) in
              change (PyFloat.ltb a b) with v
          end).
  reflexivity.
Qed.

(** C3. In one invocation, however it ends, no currency is requested
    twice from the rate service; an iteration that completes leaves every
    rate of the cache as it was; the requested currencies are currencies
    of the offers, so that there are no more requests than distinct
    currencies; and when the invocation completes, there is one cache
    [rates], holding for each currency the rate that the request for it
    returned, and no other rate was returned for that currency, with
    which the price of every offer of both legs was computed. *)
Theorem rate_requested_once
    origin destination departure_date return_date w res s' :
  _run origin destination departure_date return_date (start w) = (res, s') ->
  NoDup (rate_lookups (sent s'))
  /\ (forall leg (rates : gmap string float) result o s rates' result' s'',
        offer_body leg (rates, result) o s = (Ok (rates', result'), s'') ->
        forall c r, rates !! c = Some r -> rates' !! c = Some r)
  /\ (forall legs s1,
        fetch_legs origin destination departure_date return_date (start w) = (Ok legs, s1) ->
        (forall c, c ∈ rate_lookups (sent s') -> c ∈ currencies legs)
        /\ (length (rate_lookups (sent s'))
            <= size (list_to_set (currencies legs) : gset string))%nat
        /\ forall result, res = Ok result ->
           exists rates : gmap string float,
             (forall c r, rates !! c = Some r ->
                looked_up w (sent s') c r
                /\ forall r', looked_up w (sent s') c r' -> r' = r)
             /\ forall leg offers, (leg, offers) ∈ legs ->
                exists items l,
                  result !! leg = Some l /\ ranked items l
                  /\ Forall2 (fun o n =>
                       exists total rate,
                         rates !! currency (price o) = Some rate
                         /\ FloatOfStr.float_of_str (grandTotal (price o)) = Some total
                         /\ price_brl n = PyFloat.round2 (PyFloat.mul total rate))
                     offers items).
Proof.
  intros H.
  pose proof (_run_log _ _ _ _ _ _ _ H) as (Hnd & _ & Hlegs).
  split; [exact Hnd|]. split.
  - intros leg rates result o s rates' result' s'' Hb c r Hc.
    apply offer_body_ok_inv in Hb as (_ & _ & _ & _ & _ & Hcase).
    destruct Hcase as [(_ & -> & _)|(E & r0 & _ & ->)]; [exact Hc|].
    rewrite lookup_insert_ne; [exact Hc|]. intros <-. congruence.
  - intros legs s1 Hf. destruct (Hlegs legs s1 Hf) as (_ & Hsub).
    split; [exact Hsub|]. split.
    + rewrite <- (size_list_to_set (C := gset string)) by exact Hnd.
      apply subseteq_size. intros c Hc.
      apply elem_of_list_to_set in Hc. apply elem_of_list_to_set. auto.
    + intros result ->.
      destruct (_run_ok_rates _ _ _ _ _ _ _ _ _ Hf H) as (rates & _ & Hup & Hl).
      exists rates. split.
      { intros c r Hr. split; [now apply Hup|].
        intros r' Hr'. eapply looked_up_unique; eauto. }
      intros leg offers Hin.
      destruct (Hl leg offers Hin) as (items & l & Hres & Hrk & HF).
      exists items, l. split; [exact Hres|]. split; [exact Hrk|].
      eapply Forall2_impl; [exact HF|]. intros o n Hn.
      apply item_of_inv in Hn as (seg & total & rate & _ & Ht & Hrate & ->).
      exists total, rate. auto.
Qed.

(** C4, as amended. An invocation sends at most two offer searches. When
    the authentication call and the outbound search succeed and both dates
    are accepted by [strptime], it sends exactly two, in this order: for
    (origin, destination, departure date) and for (destination, origin,
    return date), the dates as [strftime] prints them. When one of the
    dates is not accepted, the invocation raises. The text of an accepted
    date is yyyy-MM-dd, when the platform pads the year or the year is
    1000 or more. *)
Theorem two_offer_searches
    origin destination departure_date return_date w res s' :
  _run origin destination departure_date return_date (start w) = (res, s') ->
  (length (searches (sent s')) <= 2)%nat
  /\ (forall token s1 dt1 dt2 outbound s2,
        _amadeus_token (start w) = (Ok token, s1) ->
        PyDate.strptime departure_date = Some dt1 ->
        PyDate.strptime return_date = Some dt2 ->
        _search_leg token origin destination (PyDate.strftime pad_year dt1) s1
          = (Ok outbound, s2) ->
        searches (sent s')
        = [ search_request token origin destination (PyDate.strftime pad_year dt1);
            search_request token destination origin (PyDate.strftime pad_year dt2) ])
  /\ (PyDate.strptime departure_date = None \/ PyDate.strptime return_date = None ->
      exists e, res = Raise e)
  /\ (forall dt,
        PyDate.strptime departure_date = Some dt \/ PyDate.strptime return_date = Some dt ->
        pad_year = true \/ 1000 <= PyDate.year dt ->
        PyDate.strftime pad_year dt
        = (PyDate.zero_pad 4 (PyDate.year dt) ++ "-"
           ++ PyDate.zero_pad 2 (PyDate.month dt) ++ "-"
           ++ PyDate.zero_pad 2 (PyDate.day dt))%string
        /\ PyDate.four_digits (PyDate.zero_pad 4 (PyDate.year dt)) = true
        /\ PyDate.two_digits (PyDate.zero_pad 2 (PyDate.month dt)) = true
        /\ PyDate.two_digits (PyDate.zero_pad 2 (PyDate.day dt)) = true).
Proof.
  intros H.
  pose proof (_run_log _ _ _ _ _ _ _ H) as (_ & Hlen & Hlegs).
  split; [exact Hlen|]. split.
  - intros token s1 dt1 dt2 outbound s2 Ht Hd1 Hd2 Hs1.
    pose proof (_amadeus_token_log _ _ _ Ht) as L0.
    pose proof (_search_leg_log _ _ _ _ _ _ _ Hs1) as L1.
    assert (Hfetch : exists r3 s3,
      fetch_legs origin destination departure_date return_date (start w) = (r3, s3)
      /\ searches (sent s3)
         = [ search_request token origin destination (PyDate.strftime pad_year dt1);
             search_request token destination origin (PyDate.strftime pad_year dt2) ]).
    { rewrite fetch_legs_eq, Ht, Hd1, Hs1, Hd2.
      destruct (_search_leg token destination origin _ s2) as [[inb|e] s3] eqn:Hs2;
        pose proof (_search_leg_log _ _ _ _ _ _ _ Hs2) as L2;
        eexists _, _; (split; [reflexivity|]);
        rewrite L2, L1, L0, !searches_search, searches_token; reflexivity. }
    destruct Hfetch as (r3 & s3 & Hf & Hs3).
    apply _run_inv in H as [(e & Hf' & _)|(legs & s1' & r1 & Hf' & Hn & _)];
      rewrite Hf in Hf'; injection Hf' as -> ->; [exact Hs3|].
    destruct (Hlegs _ _ Hf) as [-> _]. exact Hs3.
  - split.
    + intros Hbad.
      apply _run_inv in H as [(e & _ & ->)|(legs & s1 & r1 & Hf & _ & _)]; [eauto|].
      apply fetch_legs_ok_inv in Hf
        as (_ & dt1 & dt2 & _ & _ & _ & _ & _ & Hd1 & _ & Hd2 & _).
      destruct Hbad; congruence.
    + intros dt [Hd|Hd] Hp; eapply PyDateFacts.strftime_iso; eauto.
Qed.

(** C5, as amended. A call of [_search_leg] sends one request and no
    other. It raises when [requests] gets no response, when the body of
    the response is not JSON, and when the body has no member [data];
    otherwise it returns the member, whatever the status code is. An
    exception of [_search_leg] during [_run] is the exception of [_run]. *)
Theorem search_leg_failures token origin dest date s res s' :
  _search_leg token origin dest date s = (res, s') ->
  let rq := search_request token origin dest date in
  sent s' = sent s ++ [rq]
  /\ world s' = snd (offer_service rq (world s))
  /\ res = match fst (offer_service rq (world s)) with
           | None => Raise RequestException
           | Some r =>
               match json r with
               | None => Raise JSONDecodeError
               | Some body =>
                   match body !! "data" with
                   | None => Raise (KeyError "data")
                   | Some offers => Ok offers
                   end
               end
           end
  /\ (forall e, res = Raise e ->
      (forall departure_date return_date s0,
         _amadeus_token s0 = (Ok token, s) ->
         _to_iso departure_date s = (Ok date, s) ->
         _run origin dest departure_date return_date s0 = (Raise e, s'))
      /\ (forall departure_date return_date s0 sa date_out outbound,
            _amadeus_token s0 = (Ok token, sa) ->
            _to_iso departure_date sa = (Ok date_out, sa) ->
            _search_leg token dest origin date_out sa = (Ok outbound, s) ->
            _to_iso return_date s = (Ok date, s) ->
            _run dest origin departure_date return_date s0 = (Raise e, s'))).
Proof.
  intros H rq. pose proof H as H0.
  rewrite _search_leg_eq in H. cbv zeta in H. fold rq in H.
  destruct (offer_service rq (world s)) as [answer w'].
  injection H as <- <-. cbn [sent world fst snd].
  split; [reflexivity|]. split; [reflexivity|]. split; [reflexivity|].
  intros e He. split.
  - intros departure_date return_date s0 Ht Hd.
    unfold _run, fetch_legs, bind. now rewrite Ht, Hd, H0, He.
  - intros departure_date return_date s0 sa date_out outbound Ht Hd1 H1 Hd2.
    unfold _run, fetch_legs, bind. now rewrite Ht, Hd1, H1, Hd2, H0, He.
Qed.

(** C6. When the authentication call raises, the invocation raises the
    same exception at once: the token request is the only request sent,
    no offer search and no rate request, and no result is returned. *)
Theorem auth_failure_aborts
    origin destination departure_date return_date s e s1 :
  _amadeus_token s = (Raise e, s1) ->
  _run origin destination departure_date return_date s = (Raise e, s1)
  /\ sent s1 = sent s ++ [token_request]
  /\ searches (sent s1) = searches (sent s)
  /\ rate_lookups (sent s1) = rate_lookups (sent s).
Proof.
  intros H. pose proof (_amadeus_token_log _ _ _ H) as L.
  split; [|split; [exact L|]].
  - unfold _run, fetch_legs.
    now rewrite (bind_raise _ _ s e s1); [|rewrite (bind_raise _ _ s e s1)].
  - rewrite L. split; [apply searches_token | apply rate_lookups_token].
Qed.

(** C7, as amended. The price of the element of an offer is the product,
    rounded to two decimals, of its total and of the rate that the request
    of the invocation for the BRL rate of its currency returned, the only
    rate returned for that currency. With a total and a rate that are
    non-negative the price is non-negative, except when their product is
    NaN, which is when one is infinite and the other zero. *)
Theorem price_in_brl_nonneg
    origin destination departure_date return_date w legs s1 result s' :
  fetch_legs origin destination departure_date return_date (start w) = (Ok legs, s1) ->
  _run origin destination departure_date return_date (start w) = (Ok result, s') ->
  forall leg offers, (leg, offers) ∈ legs ->
  exists items l,
    result !! leg = Some l /\ ranked items l
    /\ Forall2 (fun o n =>
         exists total rate,
           FloatOfStr.float_of_str (grandTotal (price o)) = Some total
           /\ looked_up w (sent s') (currency (price o)) rate
           /\ (forall r', looked_up w (sent s') (currency (price o)) r' -> r' = rate)
           /\ price_brl n = PyFloat.round2 (PyFloat.mul total rate)
           /\ (nonneg total -> nonneg rate ->
               (nonneg (price_brl n)
                <-> PyFloat.is_nan (PyFloat.mul total rate) = false)
               /\ (PyFloat.is_nan (PyFloat.mul total rate) = true
                   <-> (total = S754_infinity false /\ exists z, rate = S754_zero z)
                       \/ ((exists z, total = S754_zero z)
                           /\ rate = S754_infinity false))))
       offers items.
Proof.
  intros Hf Hr leg offers Hin.
  destruct (_run_ok_rates _ _ _ _ _ _ _ _ _ Hf Hr) as (rates & Hnd & Hup & Hlegs).
  destruct (Hlegs leg offers Hin) as (items & l & Hl & Hrk & HF).
  exists items, l. split; [exact Hl|]. split; [exact Hrk|].
  eapply Forall2_impl; [exact HF|]. intros o n Hn.
  apply item_of_inv in Hn as (seg & total & rate & _ & Ht & Hrate & ->).
  exists total, rate. split; [exact Ht|]. split; [now apply Hup|].
  split; [intros r' Hr'; eapply looked_up_unique; eauto|].
  split; [reflexivity|]. cbn [price_brl]. unfold nonneg.
  rewrite !PyFloatSign.nonneg_sign_ok. intros H1 H2.
  split; [now apply PyFloatProduct.price_sign|now apply PyFloatProduct.mul_nan].
Qed.

(** C8. The leg of the result has one element per offer that the provider
    delivered for it, whatever their number. *)
Theorem one_item_per_offer
    origin destination departure_date return_date w legs s1 result s' :
  fetch_legs origin destination departure_date return_date (start w) = (Ok legs, s1) ->
  _run origin destination departure_date return_date (start w) = (Ok result, s') ->
  forall leg offers, (leg, offers) ∈ legs ->
  exists l, result !! leg = Some l /\ length l = length offers.
Proof.
  intros Hf Hr leg offers Hin.
  destruct (_run_ok _ _ _ _ _ _ _ _ _ Hf Hr) as (rates & _ & Hlegs).
  destruct (Hlegs leg offers Hin) as (items & HF & Hl).
  exists (price_sort items). split; [exact Hl|].
  unfold price_sort. rewrite PySortFacts.sort_length.
  symmetry. eapply Forall2_length, HF.
Qed.

(** C9, as amended. The company of the element of an offer is the display
    name of the carrier code of its first segment for LA, G3, AD and 2Z,
    and the code itself for any other code; it is empty only if the code
    is. And no carrier code makes the iteration raise: with another code
    in the place of the carrier code of an offer, the iteration completes
    if it did before, and else raises the same exception, in the same
    state. *)
Theorem company_of_carrier_code :
  (forall origin destination departure_date return_date w legs s1 result s',
     fetch_legs origin destination departure_date return_date (start w) = (Ok legs, s1) ->
     _run origin destination departure_date return_date (start w) = (Ok result, s') ->
     forall leg offers, (leg, offers) ∈ legs ->
     exists items l,
       result !! leg = Some l /\ ranked items l
       /\ Forall2 (fun o n =>
            exists seg, first_segment o = Some seg
              /\ (carrierCode seg = "LA" -> company n = "LATAM")
              /\ (carrierCode seg = "G3" -> company n = "GOL")
              /\ (carrierCode seg = "AD" -> company n = "Azul")
              /\ (carrierCode seg = "2Z" -> company n = "Voepass")
              /\ (carrierCode seg <> "LA" -> carrierCode seg <> "G3" ->
                  carrierCode seg <> "AD" -> carrierCode seg <> "2Z" ->
                  company n = carrierCode seg)
              /\ (carrierCode seg <> "" -> company n <> ""))
          offers items)
  /\ (forall code leg (v : loop_vars) o s,
        match offer_body leg v o s with
        | (Ok _, s') =>
            exists v', offer_body leg v (with_carrier code o) s = (Ok v', s')
        | (Raise e, s') =>
            offer_body leg v (with_carrier code o) s = (Raise e, s')
        end).
Proof.
  split.
  - intros origin destination departure_date return_date w legs s1 result s'
      Hf Hr leg offers Hin.
    destruct (_run_ok_ranked _ _ _ _ _ _ _ _ _ Hf Hr) as (rates & Hlegs).
    destruct (Hlegs leg offers Hin) as (items & l & Hl & Hrk & HF).
    exists items, l. split; [exact Hl|]. split; [exact Hrk|].
    eapply Forall2_impl; [exact HF|]. intros o n Hn.
    apply item_of_inv in Hn as (seg & total & rate & Hs & _ & _ & ->).
    exists seg. split; [exact Hs|]. cbn [company].
    repeat split; try (now intros ->).
    + apply display_name_other.
    + apply display_name_nonempty.
  - intros code leg v o s. apply offer_body_carrier.
Qed.

(** C10. The departure time, the arrival time and the stops of the
    element of an offer are those of the first segment of its first
    itinerary, whatever the other segments are. *)
Theorem times_and_stops_of_first_segment
    origin destination departure_date return_date w legs s1 result s' :
  fetch_legs origin destination departure_date return_date (start w) = (Ok legs, s1) ->
  _run origin destination departure_date return_date (start w) = (Ok result, s') ->
  forall leg offers, (leg, offers) ∈ legs ->
  exists items l,
    result !! leg = Some l /\ ranked items l
    /\ Forall2 (fun o n =>
         exists itinerary seg other_segments other_itineraries,
           itineraries o = itinerary :: other_itineraries
           /\ segments itinerary = seg :: other_segments
           /\ departure_time n = at_ (departure seg)
           /\ arrival_time n = at_ (arrival seg)
           /\ stops n = numberOfStops seg)
       offers items.
Proof.
  intros Hf Hr leg offers Hin.
  destruct (_run_ok_ranked _ _ _ _ _ _ _ _ _ Hf Hr) as (rates & Hlegs).
  destruct (Hlegs leg offers Hin) as (items & l & Hl & Hrk & HF).
  exists items, l. split; [exact Hl|]. split; [exact Hrk|].
  eapply Forall2_impl; [exact HF|]. intros o n Hn.
  apply item_of_inv in Hn as (seg & total & rate & Hs & _ & _ & ->).
  unfold first_segment in Hs.
  destruct (itineraries o) as [|itinerary its] eqn:Ei; [discriminate|].
  cbn [head] in Hs.
  destruct (segments itinerary) as [|seg0 segs] eqn:Es; [discriminate|].
  injection Hs as ->.
  exists itinerary, seg, segs, its. auto.
Qed.

End Claims.

(** ** Examples in the scripted worlds *)

Import Scenario.
Import Incidents.

Local Abbreviation init W0 := (start (Wd := W0) 0%nat).
Local Abbreviation go W0 := (trip (Wd := W0) (start (Wd := W0) 0%nat)).
Local Abbreviation legs_of W0 := (trip_legs (Wd := W0) (start (Wd := W0) 0%nat)).

(** C1, counterexample. The provider lists totals of 2.00, nan and 1.00:
    the prices 10.0, NaN and 5.0 stay in this order. The leg is not in
    non-decreasing order, and its last price is below its first. *)
Lemma nan_price_leg_unsorted :
  exists a b c,
    returned (go with_nan) !! "outbound" = Some [a; b; c]
    /\ fst (go with_nan) = Ok (returned (go with_nan))
    /\ ~ sorted_by_price [a; b; c]
    /\ PyFloat.ltb (price_brl c) (price_brl a) = true.
Proof.
  eexists _, _, _. split; [vm_compute; reflexivity|].
  split; [vm_compute; reflexivity|]. split; [|vm_compute; reflexivity].
  intros Hs. apply Sorted_inv in Hs as [_ Hd]. apply HdRel_inv in Hd.
  vm_compute in Hd. discriminate.
Qed.

(** C1, witness. The return leg of the world [normal]: 550.00 twice, from
    AD and then UA, and 250.00; the result lists 250.00 and then the two
    of 550.00, AD before UA. *)
Lemma leg_sorted_and_stable_witness :
  exists l,
    returned (go normal) !! "return" = Some l
    /\ map company l = ["LATAM"; "Azul"; "UA"]
    /\ sorted_by_price l
    /\ exists rates items,
         Forall2 (fun o n => item_of rates o = Some n) tied_offers items
         /\ Permutation l items
         /\ forall p, priced p l = priced p items.
Proof.
  eexists. split; [vm_compute; reflexivity|]. split; [reflexivity|].
  apply (leg_sorted_and_stable (Wd := normal)
           "GRU" "JFK" "10/12/2025" "20/12/2025" 0%nat
           [("outbound", three_offers); ("return", tied_offers)]
           (snd (legs_of normal)) (returned (go normal)) (snd (go normal))
           ltac:(vm_compute; reflexivity) ltac:(vm_compute; reflexivity)
           "return" tied_offers).
  - apply list_elem_of_further, list_elem_of_here.
  - vm_compute; reflexivity.
  - repeat constructor.
Defined.

(** C2, witness: the world [normal]. *)
Lemma three_offer_scenario_witness :
  exists rates n1 n2 n3,
    item_of rates offer_200_usd = Some n1
    /\ item_of rates offer_150_eur = Some n2
    /\ item_of rates offer_180_usd = Some n3
    /\ price_brl n1 = PyFloat.of_Z 1000
    /\ price_brl n2 = PyFloat.of_Z 825
    /\ price_brl n3 = PyFloat.of_Z 900
    /\ returned (go normal) !! "outbound" = Some [n2; n3; n1].
Proof.
  apply (three_offer_scenario (Wd := normal)
           "GRU" "JFK" "10/12/2025" "20/12/2025" 0%nat
           [("outbound", three_offers); ("return", tied_offers)]
           (snd (legs_of normal)) (returned (go normal)) (snd (go normal))).
  - vm_compute; reflexivity.
  - vm_compute; reflexivity.
  - apply list_elem_of_here.
  - reflexivity.
  - vm_compute; reflexivity.
  - reflexivity.
  - vm_compute; reflexivity.
  - reflexivity.
  - vm_compute; reflexivity.
  - intros s r s2 H. vm_compute in H. injection H as <- _. vm_compute; reflexivity.
  - intros s r s2 H. vm_compute in H. injection H as <- _. vm_compute; reflexivity.
Defined.

(** C3, witness. In the world [drifting] the rate of USD has gone up to
    7.0 by the end of the invocation, and USD and EUR were each requested
    once: the one request for USD returned 5.0, the only rate of USD of
    the invocation, and all the USD offers of both legs were priced at
    it. *)
Lemma rate_requested_once_witness :
  rate_lookups (sent (snd (go drifting))) = ["USD"; "EUR"]
  /\ fst (rate_service (World := drifting) (rate_request (Wd := drifting) "USD")
            (world (snd (go drifting))))
     = answer 200 "rates" {[ "BRL" := PyFloat.of_Z 7 ]}
  /\ NoDup (rate_lookups (sent (snd (go drifting))))
  /\ (length (rate_lookups (sent (snd (go drifting))))
      <= size (list_to_set (currencies [("outbound", three_offers);
                                        ("return", connecting_offer :: tied_offers)])
               : gset string))%nat
  /\ (forall r,
        looked_up (Wd := drifting) 0%nat (sent (snd (go drifting))) "USD" r
        <-> r = PyFloat.of_Z 5).
Proof.
  split; [vm_compute; reflexivity|]. split; [vm_compute; reflexivity|].
  pose proof (rate_requested_once (Wd := drifting)
                "GRU" "JFK" "10/12/2025" "20/12/2025" 0%nat
                (fst (go drifting)) (snd (go drifting))
                ltac:(vm_compute; reflexivity)) as (Hnd & _ & Hlegs).
  split; [exact Hnd|].
  destruct (Hlegs _ (snd (legs_of drifting)) ltac:(vm_compute; reflexivity))
    as (_ & Hlen & Hok).
  split; [exact Hlen|].
  destruct (Hok (returned (go drifting)) ltac:(vm_compute; reflexivity))
    as (rates & Hup & Hl).
  destruct (Hl "outbound" three_offers ltac:(apply list_elem_of_here))
    as (items & l & _ & _ & HF).
  apply Forall2_cons_inv_l in HF as (n1 & items1 & (t1 & r1 & R1 & _) & _).
  destruct (Hup _ _ R1) as [_ Huniq].
  assert (looked_up (Wd := drifting) 0%nat (sent (snd (go drifting))) "USD"
            (PyFloat.of_Z 5)) as H5.
  { exists (firstn 3 (sent (snd (go drifting)))). eexists. split.
    - exists [rate_request (Wd := drifting) "EUR"]. vm_compute; reflexivity.
    - vm_compute; reflexivity. }
  intros r. split.
  - intros Hr. rewrite (Huniq _ Hr). symmetry. now apply Huniq.
  - intros ->. exact H5.
Defined.

(** C4, counterexample. Both dates are well formed and the token service
    does not answer: no offer search is sent. *)
Lemma no_search_without_token :
  PyDate.strptime "10/12/2025" = Some (PyDate.mkDate 2025 12 10)
  /\ PyDate.strptime "20/12/2025" = Some (PyDate.mkDate 2025 12 20)
  /\ fst (go no_token) = Raise RequestException
  /\ searches (sent (snd (go no_token))) = [].
Proof. repeat split; vm_compute; reflexivity. Qed.

(** C4, witness: the two searches of the world [normal]. *)
Lemma two_offer_searches_witness :
  searches (sent (snd (go normal)))
  = [ search_request "T0" "GRU" "JFK" "2025-12-10";
      search_request "T0" "JFK" "GRU" "2025-12-20" ].
Proof.
  pose proof (two_offer_searches (Wd := normal)
                "GRU" "JFK" "10/12/2025" "20/12/2025" 0%nat
                (fst (go normal)) (snd (go normal))
                ltac:(vm_compute; reflexivity)) as (_ & Hex & _ & _).
  apply (Hex "T0" (snd (_amadeus_token (Wd := normal) (init normal)))
             (PyDate.mkDate 2025 12 10) (PyDate.mkDate 2025 12 20) three_offers
             (snd (_search_leg (Wd := normal) "T0" "GRU" "JFK" "2025-12-10"
                     (snd (_amadeus_token (Wd := normal) (init normal))))));
    vm_compute; reflexivity.
Defined.

(** C5, counterexample. The offer search answers with the status 500 and
    a body that has the member [data]: the call returns the offers. *)
Lemma status_500_not_a_failure :
  (exists r w',
     offer_service (World := status_500)
       (search_request "T0" "GRU" "JFK" "2025-12-10") 0%nat
     = (Some r, w')
     /\ status_code r = 500 /\ success_status (status_code r) = false)
  /\ fst (_search_leg (Wd := status_500) "T0" "GRU" "JFK" "2025-12-10" (init status_500))
     = Ok three_offers.
Proof.
  split; [eexists _, _; split; [reflexivity|split; reflexivity]|].
  vm_compute; reflexivity.
Qed.

(** C5, witness: one call, one request. *)
Lemma search_leg_failures_witness :
  sent (snd (_search_leg (Wd := normal) "T0" "GRU" "JFK" "2025-12-10" (init normal)))
  = [ search_request "T0" "GRU" "JFK" "2025-12-10" ].
Proof.
  apply (search_leg_failures (Wd := normal) "T0" "GRU" "JFK" "2025-12-10"
           (init normal)
           (fst (_search_leg (Wd := normal) "T0" "GRU" "JFK" "2025-12-10" (init normal)))
           (snd (_search_leg (Wd := normal) "T0" "GRU" "JFK" "2025-12-10" (init normal)))).
  vm_compute; reflexivity.
Defined.

(** C6, witness: the world [no_token]. *)
Lemma auth_failure_aborts_witness :
  go no_token
  = (Raise RequestException, snd (_amadeus_token (Wd := no_token) (init no_token)))
  /\ sent (snd (_amadeus_token (Wd := no_token) (init no_token)))
     = [] ++ [token_request (Wd := no_token)]
  /\ searches (sent (snd (_amadeus_token (Wd := no_token) (init no_token)))) = []
  /\ rate_lookups (sent (snd (_amadeus_token (Wd := no_token) (init no_token)))) = [].
Proof.
  apply (auth_failure_aborts (Wd := no_token)
           "GRU" "JFK" "10/12/2025" "20/12/2025" (init no_token) RequestException).
  vm_compute; reflexivity.
Defined.

(** C7, counterexample. A total of -10.00 USD at the rate 5.0: the price
    is -50.0, below zero. *)
Lemma negative_total_negative_price :
  exists n,
    returned (go with_refund) !! "outbound" = Some [n]
    /\ fst (go with_refund) = Ok (returned (go with_refund))
    /\ price_brl n = PyFloat.of_Z (-50)
    /\ PyFloat.ltb (price_brl n) (S754_zero false) = true
    /\ ~ nonneg (price_brl n).
Proof.
  eexists. split; [vm_compute; reflexivity|].
  split; [vm_compute; reflexivity|]. split; [vm_compute; reflexivity|].
  split; [vm_compute; reflexivity|]. unfold nonneg. vm_compute. discriminate.
Qed.

(** C7, witness. The outbound leg of the world [normal]: the totals and
    the rates are positive, and so are the three prices. *)
Lemma price_in_brl_nonneg_witness :
  exists items l,
    returned (go normal) !! "outbound" = Some l
    /\ ranked items l
    /\ Forall (fun n => nonneg (price_brl n)) items.
Proof.
  destruct (price_in_brl_nonneg (Wd := normal)
              "GRU" "JFK" "10/12/2025" "20/12/2025" 0%nat
              [("outbound", three_offers); ("return", tied_offers)]
              (snd (legs_of normal)) (returned (go normal)) (snd (go normal))
              ltac:(vm_compute; reflexivity) ltac:(vm_compute; reflexivity)
              "outbound" three_offers ltac:(apply list_elem_of_here))
    as (items & l & Hl & Hrk & HF).
  exists items, l. split; [exact Hl|]. split; [exact Hrk|].
  eapply Forall2_Forall_r; [exact HF|].
  apply Forall_forall.
  intros o Ho n (total & rate & Ht & (before & sb & _ & Hg) & _ & _ & Hnn).
  assert (Hrate : rate = f 50 (-1) \/ rate = f 55 (-1)).
  { unfold _get_rate, bind, send, json_of, subscript, of_option, ret in Hg.
    cbn in Hg. injection Hg as <- _. unfold fixed_rate.
    destruct (String.eqb _ "USD"); auto. }
  assert (Htotal : total = f 20000 (-2) \/ total = f 15000 (-2)
                   \/ total = f 18000 (-2)).
  { repeat (apply elem_of_cons in Ho as [->|Ho]);
      [| | |now apply elem_of_nil in Ho];
      vm_compute in Ht; injection Ht as <-; auto. }
  apply Hnn;
    destruct Hrate as [->| ->]; destruct Htotal as [->|[->| ->]]; reflexivity.
Defined.

(** C8, witness. Twenty-one offers from the provider: twenty-one
    elements. *)
Lemma one_item_per_offer_witness :
  exists l,
    returned (go crowded) !! "outbound" = Some l
    /\ length l = length many_offers.
Proof.
  apply (one_item_per_offer (Wd := crowded)
           "GRU" "JFK" "10/12/2025" "20/12/2025" 0%nat
           [("outbound", many_offers); ("return", [connecting_offer])]
           (snd (legs_of crowded)) (returned (go crowded)) (snd (go crowded))).
  - vm_compute; reflexivity.
  - vm_compute; reflexivity.
  - apply list_elem_of_here.
Defined.

(** C9, counterexample. The provider sends an offer whose carrier code is
    the empty string, which is none of the four codes: the invocation
    completes and the name of the element is empty. *)
Lemma empty_code_empty_name :
  exists n,
    returned (go unnamed) !! "outbound" = Some [n]
    /\ fst (go unnamed) = Ok (returned (go unnamed))
    /\ (carrierCode <$> (head unnamed_offers ≫= first_segment)) = Some ""
    /\ companies !! "" = None
    /\ company n = "".
Proof.
  eexists. split; [vm_compute; reflexivity|].
  split; [vm_compute; reflexivity|]. repeat split; reflexivity.
Qed.

(** C9, witness. The return leg of the world [drifting]: 2Z, AD, UA, which
    has no display name, and LA. *)
Lemma company_of_carrier_code_witness :
  exists items l,
    returned (go drifting) !! "return" = Some l
    /\ ranked items l
    /\ Forall2 (fun o n =>
         exists seg, first_segment o = Some seg
           /\ (carrierCode seg = "LA" -> company n = "LATAM")
           /\ (carrierCode seg = "G3" -> company n = "GOL")
           /\ (carrierCode seg = "AD" -> company n = "Azul")
           /\ (carrierCode seg = "2Z" -> company n = "Voepass")
           /\ (carrierCode seg <> "LA" -> carrierCode seg <> "G3" ->
               carrierCode seg <> "AD" -> carrierCode seg <> "2Z" ->
               company n = carrierCode seg)
           /\ (carrierCode seg <> "" -> company n <> ""))
       (connecting_offer :: tied_offers) items.
Proof.
  apply (proj1 (company_of_carrier_code (Wd := drifting))
           "GRU" "JFK" "10/12/2025" "20/12/2025" 0%nat
           [("outbound", three_offers); ("return", connecting_offer :: tied_offers)]
           (snd (legs_of drifting)) (returned (go drifting)) (snd (go drifting))).
  - vm_compute; reflexivity.
  - vm_compute; reflexivity.
  - apply list_elem_of_further, list_elem_of_here.
Defined.

(** C10, witness. The connecting offer has two segments; its element
    takes the arrival of the first, 09:00, not of the last, 19:45, and
    the one stop of the first segment. *)
Lemma times_and_stops_of_first_segment_witness :
  (exists items l,
     returned (go drifting) !! "return" = Some l
     /\ ranked items l
     /\ Forall2 (fun o n =>
          exists itinerary seg other_segments other_itineraries,
            itineraries o = itinerary :: other_itineraries
            /\ segments itinerary = seg :: other_segments
            /\ departure_time n = at_ (departure seg)
            /\ arrival_time n = at_ (arrival seg)
            /\ stops n = numberOfStops seg)
        (connecting_offer :: tied_offers) items)
  /\ item_of {[ "USD" := PyFloat.of_Z 5 ]} connecting_offer
     = Some {| company := "Voepass";
               departure_time := "2025-12-10T06:00:00";
               arrival_time := "2025-12-10T09:00:00";
               stops := 1;
               seats_remaining := 6;
               price_brl := PyFloat.of_Z 1500 |}.
Proof.
  split; [|vm_compute; reflexivity].
  apply (times_and_stops_of_first_segment (Wd := drifting)
           "GRU" "JFK" "10/12/2025" "20/12/2025" 0%nat
           [("outbound", three_offers); ("return", connecting_offer :: tied_offers)]
           (snd (legs_of drifting)) (returned (go drifting)) (snd (go drifting))).
  - vm_compute; reflexivity.
  - vm_compute; reflexivity.
  - apply list_elem_of_further, list_elem_of_here.
Defined.

(** ** What [strptime] accepts *)

Module PyDateParse.
Import PyDate PyDateText.

Lemma match_seq_inv p : forall l m r,
  match_seq p l = Some (m, r) ->
  l = m ++ r /\ Forall2 (fun (cl : char_class) c => cl c = true) p m.
Proof.
  induction p as [|cl p IH]; intros l m r H; cbn [match_seq] in H.
  - injection H as <- <-. split; [reflexivity|constructor].
  - destruct l as [|c l]; [discriminate|].
    destruct (cl c) eqn:Ec; [|discriminate].
    destruct (match_seq p l) as [[m' r']|] eqn:E; [|discriminate].
    injection H as <- <-. apply IH in E as [-> HF].
    split; [reflexivity|]. now constructor.
Qed.

Lemma match_alt_inv {R} alts : forall l (k : list ascii -> list ascii -> option R) res,
  match_alt alts l k = Some res ->
  exists p m r, In p alts /\ match_seq p l = Some (m, r) /\ k m r = Some res.
Proof.
  induction alts as [|p alts IH]; intros l k res H; cbn [match_alt] in H;
    [discriminate|].
  destruct (match_seq p l) as [[m r]|] eqn:E.
  - destruct (k m r) as [res'|] eqn:Ek.
    + injection H as <-. exists p, m, r. split; [now left|]. auto.
    + apply IH in H as (p' & m' & r' & Hin & Hm & Hk).
      exists p', m', r'. split; [now right|]. auto.
  - apply IH in H as (p' & m' & r' & Hin & Hm & Hk).
    exists p', m', r'. split; [now right|]. auto.
Qed.

Lemma match_lit_inv {R} c l (k : list ascii -> option R) res :
  match_lit c l k = Some res -> exists l', l = c :: l' /\ k l' = Some res.
Proof.
  destruct l as [|c' l]; cbn [match_lit]; [discriminate|].
  destruct (Ascii.eqb c c') eqn:E; [|discriminate].
  apply Ascii.eqb_eq in E as <-. eauto.
Qed.

(** A text that the regular expression matches is a day of one or two
    characters, a slash, a month of one or two digits, a slash and four
    digits, followed by what is left unconverted. *)
Lemma format_regex_match_inv l d m y rest :
  format_regex_match l = Some (d, m, y, rest) ->
  l = d ++ "/"%char :: m ++ "/"%char :: y ++ rest
  /\ (exists p, In p re_d /\ Forall2 (fun (cl : char_class) c => cl c = true) p d)
  /\ (exists p, In p re_m /\ Forall2 (fun (cl : char_class) c => cl c = true) p m)
  /\ Forall2 (fun (cl : char_class) c => cl c = true) [digit; digit; digit; digit] y.
Proof.
  unfold format_regex_match. intros H.
  apply match_alt_inv in H as (pd & d' & l1 & Hpd & Hd & H).
  apply match_lit_inv in H as (l2 & -> & H).
  apply match_alt_inv in H as (pm & m' & l3 & Hpm & Hm & H).
  apply match_lit_inv in H as (l4 & -> & H).
  apply match_alt_inv in H as (py & y' & rest' & Hpy & Hy & H).
  injection H as <- <- <- <-.
  apply match_seq_inv in Hd as [-> Hd].
  apply match_seq_inv in Hm as [-> Hm].
  apply match_seq_inv in Hy as [-> Hy].
  destruct Hpy as [<-|[]].
  split; [reflexivity|]. split; [eauto|]. split; [eauto|]. exact Hy.
Qed.

Lemma one_of_sub (Q : ascii -> bool) cs c :
  forallb Q (list_ascii_of_string cs) = true -> one_of cs c = true -> Q c = true.
Proof.
  unfold one_of. intros HQ H.
  apply existsb_exists in H as (x & Hin & Heq).
  apply Ascii.eqb_eq in Heq as ->.
  rewrite forallb_forall in HQ. now apply HQ.
Qed.

Ltac class_facts :=
  repeat match goal with
  | H : Forall2 _ (_ :: _) _ |- _ =>
      apply Forall2_cons_inv_l in H as (? & ? & ? & H & ->)
  | H : Forall2 _ [] _ |- _ => apply Forall2_nil_inv_l in H as ->
  end;
  repeat match goal with
  | H : one_of " " ?c = true |- _ =>
      apply (one_of_sub (fun c => Ascii.eqb c " ")) in H; [|reflexivity]
  | H : one_of _ ?c = true |- _ =>
      apply (one_of_sub digit) in H; [|reflexivity]
  | H : digit19 ?c = true |- _ =>
      apply (one_of_sub digit) in H; [|reflexivity]
  end.

Lemma re_d_text p d :
  In p re_d -> Forall2 (fun (cl : char_class) c => cl c = true) p d ->
  day_text d = true.
Proof.
  intros Hin HF. cbn in Hin.
  repeat (destruct Hin as [<-|Hin]); try contradiction; class_facts;
    cbn [day_text];
    repeat match goal with H : _ = true |- _ => rewrite H; clear H end;
    rewrite ?orb_true_r; reflexivity.
Qed.

Lemma re_m_text p m :
  In p re_m -> Forall2 (fun (cl : char_class) c => cl c = true) p m ->
  digits_text 1 2 m = true.
Proof.
  intros Hin HF. cbn in Hin.
  repeat (destruct Hin as [<-|Hin]); try contradiction; class_facts;
    unfold digits_text; cbn -[digit];
    repeat match goal with H : _ = true |- _ => rewrite H; clear H end;
    reflexivity.
Qed.

Lemma re_Y_text y :
  Forall2 (fun (cl : char_class) c => cl c = true) [digit; digit; digit; digit] y ->
  digits_text 4 4 y = true.
Proof.
  intros HF. class_facts.
  unfold digits_text; cbn -[digit].
  repeat match goal with H : _ = true |- _ => rewrite H; clear H end.
  reflexivity.
Qed.

(** The dates that [strptime] accepts, by their text. *)
Lemma strptime_inv s dt : strptime s = Some dt -> date_text s dt.
Proof.
  unfold strptime.
  destruct (format_regex_match _) as [[[[d m] y] [|c rest]]|] eqn:E;
    try discriminate.
  destruct (valid_date _ _ _) eqn:Ev; [|discriminate].
  intros H. injection H as <-.
  apply format_regex_match_inv in E as (El & (pd & Hpd & Hd) & (pm & Hpm & Hm) & Hy).
  rewrite app_nil_r in El.
  exists d, m, y. split; [exact El|].
  split; [eapply re_d_text; eauto|]. split; [eapply re_m_text; eauto|].
  split; [now apply re_Y_text|]. split; [reflexivity|exact Ev].
Qed.

End PyDateParse.

(** ** What [strptime] accepts: every date of the calendar *)

Module PyDateAccept.
Import PyDate PyDateText.

Lemma digit_cases c :
  digit c = true -> In c (list_ascii_of_string "0123456789").
Proof.
  unfold digit, one_of. intros H.
  apply existsb_exists in H as (x & Hin & Heq).
  now apply Ascii.eqb_eq in Heq as ->.
Qed.

Ltac int_value H :=
  match type of H with
  | context [int_of ?l] =>
      let v := eval vm_compute in (int_of l) in
      change (int_of l) with v in H
  end.

Ltac by_digit H :=
  apply digit_cases in H; cbn in H;
  repeat (destruct H as [<-|H]); try contradiction.

Lemma day_field dd {R} (K : list ascii -> list ascii -> option R) l :
  day_text dd = true -> 1 <= int_of dd <= 31 ->
  match_alt re_d (dd ++ "/"%char :: l) (fun d l1 => match_lit "/" l1 (K d))
  = K dd l.
Proof.
  intros Ht Hr.
  destruct dd as [|c1 [|c2 [|c3 dd]]]; try discriminate; cbn [day_text] in Ht.
  - by_digit Ht; int_value Hr; try lia;
      vm_compute; destruct (K _ _); reflexivity.
  - apply andb_prop in Ht as [H1 H2]. apply orb_prop in H1 as [H1|H1].
    + by_digit H1; by_digit H2; int_value Hr; try lia;
        vm_compute; destruct (K _ _); reflexivity.
    + apply Ascii.eqb_eq in H1 as ->.
      by_digit H2; int_value Hr; try lia;
        vm_compute; destruct (K _ _); reflexivity.
Qed.

Lemma month_field mm {R} (K : list ascii -> list ascii -> option R) l :
  digits_text 1 2 mm = true -> 1 <= int_of mm <= 12 ->
  match_alt re_m (mm ++ "/"%char :: l) (fun m l1 => match_lit "/" l1 (K m))
  = K mm l.
Proof.
  intros Ht Hr.
  destruct mm as [|c1 [|c2 [|c3 mm]]]; try discriminate;
    unfold digits_text in Ht; cbn -[digit] in Ht.
  - rewrite andb_true_r in Ht.
    by_digit Ht; int_value Hr; try lia;
      vm_compute; destruct (K _ _); reflexivity.
  - rewrite andb_true_r in Ht. apply andb_prop in Ht as [H1 H2].
    by_digit H1; by_digit H2; int_value Hr; try lia;
      vm_compute; destruct (K _ _); reflexivity.
Qed.

Lemma year_field yyyy {R} (K : list ascii -> list ascii -> option R) rest :
  digits_text 4 4 yyyy = true ->
  match_alt re_Y (yyyy ++ rest) K = K yyyy rest.
Proof.
  intros Ht.
  destruct yyyy as [|c1 [|c2 [|c3 [|c4 [|c5 yyyy]]]]]; try discriminate;
    unfold digits_text in Ht; cbn -[digit] in Ht.
  rewrite andb_true_r in Ht.
  apply andb_prop in Ht as [H1 Ht]. apply andb_prop in Ht as [H2 Ht].
  apply andb_prop in Ht as [H3 H4].
  cbn [app re_Y match_alt match_seq]. rewrite H1, H2, H3, H4.
  now destruct (K _ _).
Qed.

Lemma valid_date_bounds y m d :
  valid_date y m d = true ->
  1 <= y <= 9999 /\ 1 <= m <= 12 /\ 1 <= d <= 31.
Proof.
  unfold valid_date, days_in_month. intros H.
  repeat (apply andb_prop in H as [H ?]).
  destruct (m =? 2); [destruct (is_leap y)|];
    [| |destruct ((m =? 4) || (m =? 6) || (m =? 9) || (m =? 11))]; lia.
Qed.

Lemma strptime_of_text s dt : date_text s dt -> strptime s = Some dt.
Proof.
  intros (dd & mm & yyyy & Es & Hd & Hm & Hy & -> & Hv).
  cbn [year month day] in Hv.
  destruct (valid_date_bounds _ _ _ Hv) as (_ & Bm & Bd).
  unfold strptime, format_regex_match. rewrite Es.
  rewrite <- (app_nil_r yyyy) at 1.
  rewrite (day_field dd
    (fun d l2 => match_alt re_m l2 (fun m0 l3 => match_lit "/" l3 (fun l4 =>
       match_alt re_Y l4 (fun y0 rest => Some (d, m0, y0, rest)))))
    _ Hd Bd).
  rewrite (month_field mm
    (fun m0 l4 => match_alt re_Y l4 (fun y0 rest => Some (dd, m0, y0, rest)))
    _ Hm Bm).
  rewrite (year_field yyyy (fun y0 rest => Some (dd, mm, y0, rest)) [] Hy).
  cbn [year month day]. now rewrite Hv.
Qed.

(** The texts of a number: in two digits, or in as few as it takes. *)
Lemma chars_app s1 s2 :
  list_ascii_of_string (s1 ++ s2)
  = list_ascii_of_string s1 ++ list_ascii_of_string s2.
Proof.
  induction s1 as [|c s1 IH]; [reflexivity|].
  cbv [String.append]. fold String.append.
  cbn [list_ascii_of_string app]. now rewrite IH.
Qed.

Lemma digit_char_digit' k : 0 <= k < 10 -> digit (digit_char k) = true.
Proof.
  intros H. rewrite <- (Z.mod_small k 10) by lia. apply PyDateFacts.digit_char_digit.
Qed.

Lemma digit_char_val k :
  0 <= k < 10 -> Z.of_nat (nat_of_ascii (digit_char k)) - 48 = k.
Proof.
  intros H. unfold digit_char. rewrite nat_ascii_embedding by lia. lia.
Qed.

Lemma int_of_digits ks : forall acc,
  Forall (fun k => 0 <= k < 10) ks ->
  fold_left
    (fun acc c => if digit c then 10 * acc + (Z.of_nat (nat_of_ascii c) - 48) else acc)
    (map digit_char ks) acc
  = fold_left (fun acc k => 10 * acc + k) ks acc.
Proof.
  induction ks as [|k ks IH]; intros acc H; [reflexivity|].
  apply Forall_cons_1 in H as [Hk H]. cbn [map fold_left].
  rewrite digit_char_digit', digit_char_val by lia. now apply IH.
Qed.

Lemma forallb_digit_chars ks :
  Forall (fun k => 0 <= k < 10) ks -> forallb digit (map digit_char ks) = true.
Proof.
  induction 1 as [|k ks Hk _ IH]; [reflexivity|].
  cbn [map forallb]. now rewrite digit_char_digit', IH.
Qed.

Lemma zero_pad_4_digits y :
  0 <= y <= 9999 ->
  exists a b c e,
    Forall (fun k => 0 <= k < 10) [a; b; c; e]
    /\ list_ascii_of_string (zero_pad 4 y) = map digit_char [a; b; c; e]
    /\ y = 10 * (10 * (10 * (10 * 0 + a) + b) + c) + e.
Proof.
  intros H. unfold zero_pad.
  destruct (Z.lt_ge_cases y 10);
    [rewrite PyDateFacts.decimal_1 by lia;
     exists 0, 0, 0, (y mod 10)|].
  2: destruct (Z.lt_ge_cases y 100);
    [rewrite PyDateFacts.decimal_2 by lia;
     exists 0, 0, (y / 10 mod 10), (y mod 10)|].
  3: destruct (Z.lt_ge_cases y 1000);
    [rewrite PyDateFacts.decimal_3 by lia;
     exists 0, (y / 10 / 10 mod 10), (y / 10 mod 10), (y mod 10)
    |rewrite PyDateFacts.decimal_4 by lia;
     exists (y / 10 / 10 / 10 mod 10), (y / 10 / 10 mod 10), (y / 10 mod 10),
       (y mod 10)].
  all: split; [repeat constructor; try lia; try (apply Z.mod_pos_bound; lia)|].
  all: split; [reflexivity|].
  all: Z.div_mod_to_equations; lia.
Qed.

Lemma year_spelling y :
  0 <= y <= 9999 ->
  digits_text 4 4 (list_ascii_of_string (zero_pad 4 y)) = true
  /\ int_of (list_ascii_of_string (zero_pad 4 y)) = y.
Proof.
  intros Hy.
  destruct (zero_pad_4_digits y Hy) as (a & b & c & e & Hk & -> & Ey).
  split.
  - unfold digits_text. now rewrite forallb_digit_chars.
  - unfold int_of. rewrite int_of_digits by assumption. cbn [fold_left]. lia.
Qed.

Lemma spelling n N :
  1 <= n <= 31 -> N = zero_pad 2 n \/ N = decimal n ->
  day_text (list_ascii_of_string N) = true
  /\ digits_text 1 2 (list_ascii_of_string N) = true
  /\ int_of (list_ascii_of_string N) = n.
Proof.
  intros Hn HN.
  assert (In n (map Z.of_nat (seq 1 31))) as Hin.
  { apply in_map_iff. exists (Z.to_nat n). split; [lia|]. apply in_seq. lia. }
  cbn in Hin.
  repeat (destruct Hin as [<-|Hin]); try contradiction;
    destruct HN as [-> | ->]; repeat split; reflexivity.
Qed.

(** Every date of the calendar has the texts [dd/MM/yyyy], with the day
    and the month in either spelling. *)
Lemma date_text_of_date y m d D M :
  valid_date y m d = true ->
  D = zero_pad 2 d \/ D = decimal d ->
  M = zero_pad 2 m \/ M = decimal m ->
  date_text (D ++ "/" ++ M ++ "/" ++ zero_pad 4 y) (mkDate y m d).
Proof.
  intros Hv HD HM.
  destruct (valid_date_bounds _ _ _ Hv) as (Hy & Hm & Hd).
  destruct (spelling d D Hd HD) as (Td & _ & Ed).
  destruct (spelling m M ltac:(lia) HM) as (_ & Tm & Em).
  destruct (year_spelling y ltac:(lia)) as (Ty & Ey).
  exists (list_ascii_of_string D), (list_ascii_of_string M),
    (list_ascii_of_string (zero_pad 4 y)).
  split; [rewrite !chars_app; reflexivity|].
  rewrite Ed, Em, Ey. auto.
Qed.

(** The texts that [strftime] prints hold digits and hyphens only. *)
Lemma decimal_from_digits fuel : forall n acc,
  Forall (fun c => digit c = true) (list_ascii_of_string acc) ->
  Forall (fun c => digit c = true) (list_ascii_of_string (decimal_from fuel n acc)).
Proof.
  induction fuel as [|fuel IH]; intros n acc Hacc; cbn [decimal_from].
  - cbn [list_ascii_of_string]. constructor; [apply PyDateFacts.digit_char_digit|exact Hacc].
  - destruct (n <? 10).
    + cbn [list_ascii_of_string].
      constructor; [apply PyDateFacts.digit_char_digit|exact Hacc].
    + apply IH. cbn [list_ascii_of_string].
      constructor; [apply PyDateFacts.digit_char_digit|exact Hacc].
Qed.

Lemma decimal_digits n :
  Forall (fun c => digit c = true) (list_ascii_of_string (decimal n)).
Proof. apply decimal_from_digits. constructor. Qed.

Lemma zero_pad_digits w n :
  Forall (fun c => digit c = true) (list_ascii_of_string (zero_pad w n)).
Proof.
  unfold zero_pad. rewrite chars_app. apply Forall_app. split; [|apply decimal_digits].
  induction (w - String.length (decimal n))%nat as [|k IH]; cbn [zeros list_ascii_of_string];
    [constructor|]. constructor; [reflexivity|exact IH].
Qed.

Lemma strftime_no_slash pad dt :
  ~ In "/"%char (list_ascii_of_string (strftime pad dt)).
Proof.
  assert (Forall (fun c => digit c = true \/ c = "-"%char)
            (list_ascii_of_string (strftime pad dt))) as H.
  { assert (forall s, Forall (fun c => digit c = true) (list_ascii_of_string s) ->
              Forall (fun c => digit c = true \/ c = "-"%char) (list_ascii_of_string s))
      as Hd by (intros s Hs; eapply Forall_impl; [exact Hs|]; intros c Hc; now left).
    unfold strftime. rewrite !chars_app. cbn [list_ascii_of_string app].
    apply Forall_app. split.
    { apply Hd. destruct pad; [apply zero_pad_digits|apply decimal_digits]. }
    apply Forall_cons. split; [now right|].
    apply Forall_app. split; [apply Hd, zero_pad_digits|].
    apply Forall_cons. split; [now right|]. apply Hd, zero_pad_digits. }
  intros Hin. rewrite List.Forall_forall in H.
  destruct (H _ Hin) as [Hd|Hd]; discriminate.
Qed.

Lemma date_text_slash s dt : date_text s dt -> In "/"%char (list_ascii_of_string s).
Proof.
  intros (dd & mm & yyyy & -> & _). apply in_or_app. right. now left.
Qed.

End PyDateAccept.

(** ** Further properties: the conversion of the dates *)

Section DateProperties.
Context `{Wd : World}.
Import PyDate PyDateText.

(** X1. [_to_iso] converts exactly the texts [dd/mm/yyyy] of the dates of
    the calendar: a day of one or two digits, or of a blank and a digit, a
    month of one or two digits and a year of four digits, with nothing
    before, between or after, that name a day which the month of that
    year has. For such a text it returns the date as [strftime] prints
    it; for any other text it raises [ValueError]. The state is left as
    it was in both cases. *)
Theorem to_iso_converts_exactly_the_dates date_br s :
  (exists dt, date_text date_br dt
              /\ _to_iso date_br s = (Ok (strftime pad_year dt), s))
  \/ ((forall dt, ~ date_text date_br dt)
      /\ _to_iso date_br s = (Raise ValueError, s)).
Proof.
  rewrite _to_iso_eq. destruct (strptime date_br) as [dt|] eqn:E.
  - left. exists dt. split; [now apply PyDateParse.strptime_inv|reflexivity].
  - right. split; [|reflexivity]. intros dt Ht.
    apply PyDateAccept.strptime_of_text in Ht. congruence.
Qed.

(** X2. Every date of the calendar, from the year 1 to the year 9999, is
    converted: written [dd/MM/yyyy], with the day and the month in two
    digits or without the leading zero, it becomes [yyyy-MM-dd] with the
    same year, month and day, each padded with zeros. On a platform whose
    [%Y] does not pad, this is for the years from 1000 on. *)
Theorem to_iso_of_calendar_date y m d D M s :
  valid_date y m d = true ->
  D = zero_pad 2 d \/ D = decimal d ->
  M = zero_pad 2 m \/ M = decimal m ->
  pad_year = true \/ 1000 <= y ->
  _to_iso (D ++ "/" ++ M ++ "/" ++ zero_pad 4 y) s
  = (Ok (zero_pad 4 y ++ "-" ++ zero_pad 2 m ++ "-" ++ zero_pad 2 d)%string, s).
Proof.
  intros Hv HD HM Hp.
  rewrite _to_iso_eq.
  rewrite (PyDateAccept.strptime_of_text _ _
             (PyDateAccept.date_text_of_date y m d D M Hv HD HM)).
  unfold strftime. cbn [year month day].
  destruct (PyDateAccept.valid_date_bounds _ _ _ Hv) as (Hy & _).
  destruct pad_year; [reflexivity|].
  destruct Hp as [Hp|Hp]; [discriminate|].
  now rewrite PyDateFacts.year_unpadded by lia.
Qed.

(** X3. [_to_iso] does not accept what it returns: applied to a date that
    is already in ISO form it raises [ValueError]. *)
Theorem to_iso_rejects_iso_dates date_br s iso s' :
  _to_iso date_br s = (Ok iso, s') ->
  _to_iso iso s' = (Raise ValueError, s').
Proof.
  rewrite !_to_iso_eq. intros H.
  destruct (strptime date_br) as [dt|]; [|discriminate].
  injection H as <- <-.
  destruct (strptime (strftime pad_year dt)) as [dt'|] eqn:E; [|reflexivity].
  apply PyDateParse.strptime_inv, PyDateAccept.date_text_slash in E.
  now apply PyDateAccept.strftime_no_slash in E.
Qed.

End DateProperties.

(** ** Further facts: the order of the requests *)

Section OrderFacts.
Context `{Wd : World}.

Lemma searches_rates cs : searches (map rate_request cs) = [].
Proof. induction cs as [|c cs IH]; [reflexivity|exact IH]. Qed.

Lemma rate_lookups_rates cs : rate_lookups (map rate_request cs) = cs.
Proof.
  induction cs as [|c cs IH]; [reflexivity|].
  cbn [map]. change (rate_lookups (rate_request c :: map rate_request cs))
    with (c :: rate_lookups (map rate_request cs)). now rewrite IH.
Qed.

(** The fetching phase sends the token request and then offer searches. *)
Lemma fetch_legs_sent origin destination departure_date return_date s res s1 :
  fetch_legs origin destination departure_date return_date s = (res, s1) ->
  exists srch,
    sent s1 = sent s ++ token_request :: srch
    /\ searches srch = srch /\ rate_lookups srch = [].
Proof.
  rewrite fetch_legs_eq.
  destruct (_amadeus_token s) as [[token|e] s0] eqn:E0;
    pose proof (_amadeus_token_log _ _ _ E0) as L0.
  2:{ intros H. injection H as _ <-. exists []. auto. }
  destruct (PyDate.strptime departure_date) as [dt1|].
  2:{ intros H. injection H as _ <-. exists []. auto. }
  destruct (_search_leg _ _ _ _ s0) as [[out|e] s2] eqn:E1;
    pose proof (_search_leg_log _ _ _ _ _ _ _ E1) as L1.
  2:{ intros H. injection H as _ <-. eexists [_].
      rewrite L1, L0, <- app_assoc. auto. }
  destruct (PyDate.strptime return_date) as [dt2|].
  2:{ intros H. injection H as _ <-. eexists [_].
      rewrite L1, L0, <- app_assoc. auto. }
  destruct (_search_leg _ _ _ _ s2) as [[inb|e] s3] eqn:E2;
    pose proof (_search_leg_log _ _ _ _ _ _ _ E2) as L2;
    intros H; injection H as _ <-; eexists [_; _];
    rewrite L2, L1, L0, <- !app_assoc; auto.
Qed.

(** The loops send requests for rates, and nothing else. *)
Lemma for_offers_sent leg offers :
  forall v s res s',
  for_each offers (offer_body leg) v s = (res, s') ->
  exists cs, sent s' = sent s ++ map rate_request cs.
Proof.
  induction offers as [|o offers IH]; intros [rates result] s res s' H.
  - apply ret_inv in H as [_ ->]. exists []. now rewrite app_nil_r.
  - cbn [for_each] in H.
    assert (forall r1 s1, offer_body leg (rates, result) o s = (r1, s1) ->
              exists cs, sent s1 = sent s ++ map rate_request cs) as Hstep.
    { intros r1 s1 H1.
      apply offer_body_log in H1 as [(_ & ->)|(_ & ->)];
        [exists []; now rewrite app_nil_r|now eexists [_]]. }
    apply bind_inv in H as [(v1 & s1 & H1 & H)|(e & H1 & _)].
    + apply Hstep in H1 as (cs1 & E1). apply IH in H as (cs & E).
      exists (cs1 ++ cs). now rewrite E, E1, map_app, app_assoc.
    + now apply Hstep in H1.
Qed.

Lemma for_legs_sent legs :
  forall v s res s',
  for_each legs leg_body v s = (res, s') ->
  exists cs, sent s' = sent s ++ map rate_request cs.
Proof.
  induction legs as [|[leg offers] legs IH]; intros v s res s' H.
  - apply ret_inv in H as [_ ->]. exists []. now rewrite app_nil_r.
  - cbn [for_each] in H.
    assert (forall r1 s1, leg_body v (leg, offers) s = (r1, s1) ->
              exists cs, sent s1 = sent s ++ map rate_request cs) as Hstep.
    { intros r1 s1 H1. destruct v as [rates result]. unfold leg_body in H1.
      apply bind_inv in H1 as [(v1 & s2 & H1 & H2)|(e & H1 & _)].
      - apply sort_leg_pure in H2 as ->. eapply for_offers_sent; eauto.
      - eapply for_offers_sent; eauto. }
    apply bind_inv in H as [(v1 & s1 & H1 & H)|(e & H1 & _)].
    + apply Hstep in H1 as (cs1 & E1). apply IH in H as (cs & E).
      exists (cs1 ++ cs). now rewrite E, E1, map_app, app_assoc.
    + now apply Hstep in H1.
Qed.

(** The phases of an invocation and its log. *)
Lemma _run_sent origin destination departure_date return_date s res s' :
  _run origin destination departure_date return_date s = (res, s') ->
  exists srch cs,
    sent s' = sent s ++ token_request :: srch ++ map rate_request cs
    /\ searches srch = srch /\ rate_lookups srch = [].
Proof.
  intros H.
  apply _run_inv in H as [(e & Hf & _)|(legs & s1 & r1 & Hf & Hn & _)];
    apply fetch_legs_sent in Hf as (srch & E1 & Hs & Hr).
  - exists srch, []. now rewrite app_nil_r.
  - apply for_legs_sent in Hn as (cs & E). exists srch, cs.
    rewrite E, E1, <- app_assoc. auto.
Qed.

(** What was seen, in the order of the first occurrences. *)
Lemma see_prefix acc c : acc `prefix_of` see acc c.
Proof.
  unfold see. destruct (decide (c ∈ acc)); [reflexivity|now apply prefix_app_r].
Qed.

Lemma fold_see_prefix l : forall acc, acc `prefix_of` fold_left see l acc.
Proof.
  induction l as [|c l IH]; intros acc; [reflexivity|].
  cbn [fold_left]. transitivity (see acc c); [apply see_prefix|apply IH].
Qed.

(** One iteration: the currency of its offer is seen. *)
Lemma offer_body_seen leg rates result o s res s' :
  offer_body leg (rates, result) o s = (res, s') ->
  cache_exact rates (sent s) ->
  rate_lookups (sent s') = see (rate_lookups (sent s)) (currency (price o))
  /\ (forall rates' result', res = Ok (rates', result') ->
        cache_exact rates' (sent s')).
Proof.
  intros H Hc. pose proof H as Hlog.
  apply offer_body_log in Hlog as [(Hs & ->)|(Hn & Hlog)].
  - split.
    + unfold see. destruct (decide _) as [|Hnot]; [reflexivity|].
      now apply Hc in Hs.
    + intros rates' result' ->.
      apply offer_body_ok_inv in H as (l & n & _ & _ & _ & [(_ & -> & _)|(E & _)]);
        [exact Hc|]. destruct Hs as [x Hs]. congruence.
  - rewrite Hlog, rate_lookups_rate. split.
    + unfold see. destruct (decide _) as [Hin|]; [|reflexivity].
      apply Hc in Hin as [x Hx]. congruence.
    + intros rates' result' ->.
      apply offer_body_ok_inv in H
        as (l & n & _ & _ & _ & [([x Hx] & _)|(_ & r & _ & ->)]); [congruence|].
      intros c. rewrite rate_lookups_rate, elem_of_app, list_elem_of_singleton, <- (Hc c).
      destruct (decide (c = currency (price o))) as [->|Hne].
      * rewrite lookup_insert_eq. split; eauto.
      * rewrite lookup_insert_ne by done. split; [auto|]. now intros [?|?].
Qed.

Lemma for_offers_seen leg offers :
  forall rates result s res s',
  for_each offers (offer_body leg) (rates, result) s = (res, s') ->
  cache_exact rates (sent s) ->
  rate_lookups (sent s')
    `prefix_of` fold_left see (map (fun o => currency (price o)) offers)
                  (rate_lookups (sent s))
  /\ (forall rates' result', res = Ok (rates', result') ->
        rate_lookups (sent s')
        = fold_left see (map (fun o => currency (price o)) offers)
            (rate_lookups (sent s))
        /\ cache_exact rates' (sent s')).
Proof.
  induction offers as [|o offers IH]; intros rates result s res s' H Hc.
  - apply ret_inv in H as [-> ->]. split; [reflexivity|].
    intros rates' result' E. injection E as <- <-. auto.
  - cbn [for_each map fold_left] in *.
    apply bind_inv in H as [([rates1 result1] & s1 & H1 & H)|(e & H1 & ->)].
    + destruct (offer_body_seen _ _ _ _ _ _ _ H1 Hc) as [E1 Hc1].
      rewrite <- E1. eapply IH; eauto.
    + destruct (offer_body_seen _ _ _ _ _ _ _ H1 Hc) as [E1 _].
      split; [|discriminate]. rewrite E1. apply fold_see_prefix.
Qed.

Lemma for_legs_seen legs :
  forall rates result s res s',
  for_each legs leg_body (rates, result) s = (res, s') ->
  cache_exact rates (sent s) ->
  rate_lookups (sent s')
    `prefix_of` fold_left see (currencies legs) (rate_lookups (sent s))
  /\ (forall v', res = Ok v' ->
        rate_lookups (sent s')
        = fold_left see (currencies legs) (rate_lookups (sent s))).
Proof.
  induction legs as [|[leg offers] legs IH]; intros rates result s res s' H Hc.
  - apply ret_inv in H as [-> ->]. split; [reflexivity|]. auto.
  - cbn [for_each] in H.
    change (currencies ((leg, offers) :: legs))
      with (map (fun o => currency (price o)) offers ++ currencies legs).
    rewrite fold_left_app.
    apply bind_inv in H as [([rates1 result1] & s1 & H1 & H)|(e & H1 & ->)].
    + unfold leg_body in H1.
      apply bind_ok_inv in H1 as ([rates2 result2] & s2 & H1 & H2).
      apply sort_leg_ok_inv in H2 as (l & _ & -> & -> & _).
      destruct (for_offers_seen _ _ _ _ _ _ _ H1 Hc) as [_ Hok].
      destruct (Hok _ _ eq_refl) as [E1 Hc1]. rewrite <- E1.
      eapply IH; eauto.
    + split; [|discriminate]. unfold leg_body in H1.
      apply bind_inv in H1 as [([rates2 result2] & s2 & H1 & H2)|(e' & H1 & _)].
      * apply sort_leg_pure in H2 as ->.
        destruct (for_offers_seen _ _ _ _ _ _ _ H1 Hc) as [_ Hok].
        destruct (Hok _ _ eq_refl) as [E1 _]. rewrite E1. apply fold_see_prefix.
      * destruct (for_offers_seen _ _ _ _ _ _ _ H1 Hc) as [Hp _].
        etransitivity; [exact Hp|apply fold_see_prefix].
Qed.

Lemma cache_exact_empty log : rate_lookups log = [] -> cache_exact ∅ log.
Proof.
  intros E c. rewrite E, lookup_empty. split.
  - intros [x Hx]. discriminate.
  - intros Hin. inversion Hin.
Qed.

End OrderFacts.

(** In a list in order, what comes first is below what comes after. *)
Lemma strongly_sorted_split {A} (R : A -> A -> Prop) l :
  StronglySorted R l ->
  forall k a b, a ∈ take k l -> b ∈ drop k l -> R a b.
Proof.
  induction 1 as [|x l Hs IH Hx]; intros k a b Ha Hb.
  - rewrite take_nil in Ha. inversion Ha.
  - destruct k as [|k]; [inversion Ha|].
    cbn [take drop] in Ha, Hb. apply elem_of_cons in Ha as [->|Ha].
    + rewrite List.Forall_forall in Hx. apply Hx, list_elem_of_In.
      now apply (subseteq_drop k l).
    + eapply IH; eauto.
Qed.

(** ** Further properties: the invocation *)

Section RunProperties.
Context `{Wd : World}.

(** X5. The requests of an invocation, however it ends, come in three
    groups: the token request, once and first; then the offer searches;
    then the requests for rates. No search follows a rate request, and
    the token is not requested again. *)
Theorem requests_in_three_groups
    origin destination departure_date return_date w res s' :
  _run origin destination departure_date return_date (start w) = (res, s') ->
  sent s'
  = token_request :: searches (sent s')
    ++ map rate_request (rate_lookups (sent s')).
Proof.
  intros H. apply _run_sent in H as (srch & cs & E & Hs & Hr).
  cbn [start sent app] in E. rewrite E.
  change (token_request :: srch ++ map rate_request cs)
    with ([token_request] ++ srch ++ map rate_request cs).
  rewrite !searches_app, !rate_lookups_app, Hs, Hr, searches_rates,
    rate_lookups_rates.
  change (searches [token_request]) with (@nil Request).
  change (rate_lookups [token_request]) with (@nil string).
  cbn [app]. now rewrite app_nil_r.
Qed.

(** X6. Once both legs are fetched, the rates are requested for the
    currencies of the offers in the order in which they first appear, the
    outbound offers before the return ones, and each once: when the
    invocation completes, the requested currencies are exactly the
    distinct currencies of the offers in that order; when it raises, they
    are the first of them. *)
Theorem rates_requested_by_first_appearance
    origin destination departure_date return_date w legs s1 res s' :
  fetch_legs origin destination departure_date return_date (start w) = (Ok legs, s1) ->
  _run origin destination departure_date return_date (start w) = (res, s') ->
  rate_lookups (sent s') `prefix_of` first_seen (currencies legs)
  /\ (forall result, res = Ok result ->
        rate_lookups (sent s') = first_seen (currencies legs)).
Proof.
  intros Hf Hr.
  pose proof (fetch_legs_start _ _ _ _ _ _ _ Hf) as E0.
  apply _run_inv in Hr as [(e' & Hf' & _)|(legs' & s1' & r1 & Hf' & Hn & Hres)];
    [congruence|].
  rewrite Hf in Hf'. injection Hf' as <- <-.
  unfold normalize_and_rank in Hn.
  apply for_legs_seen in Hn as [Hp Heq]; [|now apply cache_exact_empty].
  rewrite E0 in Hp, Heq. split; [exact Hp|].
  intros result ->. destruct r1 as [v|e]; [|discriminate]. now apply (Heq v).
Qed.

(** X7. The result of an invocation that completes has the two keys
    [outbound] and [return], and no other. *)
Theorem result_has_the_two_legs
    origin destination departure_date return_date s result s' :
  _run origin destination departure_date return_date s = (Ok result, s') ->
  forall k, is_Some (result !! k) <-> k = "outbound" \/ k = "return".
Proof.
  intros Hr k.
  apply _run_inv in Hr as [(e & _ & Hres)|(legs & s1 & r1 & Hf & Hn & Hres)];
    [discriminate|].
  destruct r1 as [[rates result1]|e]; [|discriminate].
  injection Hres as ->. cbn [snd].
  apply fetch_legs_ok_inv in Hf
    as (token & dt1 & dt2 & out & inb & s2 & s3 & _ & _ & _ & _ & _ & ->).
  apply normalize_and_rank_ok in Hn as (items_out & items_in & _ & _ & ->).
  destruct (decide (k = "outbound")) as [->|Ho].
  - rewrite lookup_insert_eq. split; eauto.
  - rewrite lookup_insert_ne by done.
    destruct (decide (k = "return")) as [->|Hr].
    + rewrite lookup_singleton_eq. split; eauto.
    + rewrite lookup_singleton_ne by done. split.
      * intros [x Hx]. discriminate.
      * intros [?|?]; contradiction.
Qed.

(** X8. The seats of the element of an offer are the bookable seats of
    the offer, as the provider sent them. *)
Theorem seats_of_the_offer
    origin destination departure_date return_date w legs s1 result s' :
  fetch_legs origin destination departure_date return_date (start w) = (Ok legs, s1) ->
  _run origin destination departure_date return_date (start w) = (Ok result, s') ->
  forall leg offers, (leg, offers) ∈ legs ->
  exists items l,
    result !! leg = Some l /\ ranked items l
    /\ Forall2 (fun o n => seats_remaining n = numberOfBookableSeats o) offers items.
Proof.
  intros Hf Hr leg offers Hin.
  destruct (_run_ok_ranked _ _ _ _ _ _ _ _ _ Hf Hr) as (rates & Hlegs).
  destruct (Hlegs leg offers Hin) as (items & l & Hl & Hrk & HF).
  exists items, l. split; [exact Hl|]. split; [exact Hrk|].
  eapply Forall2_impl; [exact HF|]. intros o n Hn.
  now apply item_of_inv in Hn as (seg & total & rate & _ & _ & _ & ->).
Qed.

(** X9. A departure date that [strptime] does not accept is found after
    the token was requested: the token request is the only request of
    the invocation, no offer search is sent, and the invocation raises,
    [ValueError] when the token was granted. *)
Theorem invalid_departure_date
    origin destination departure_date return_date s res s' :
  PyDate.strptime departure_date = None ->
  _run origin destination departure_date return_date s = (res, s') ->
  sent s' = sent s ++ [token_request]
  /\ ((exists e, _amadeus_token s = (Raise e, s') /\ res = Raise e)
      \/ (exists token, _amadeus_token s = (Ok token, s')
                        /\ res = Raise ValueError)).
Proof.
  intros Hd Hr.
  apply _run_inv in Hr as [(e & Hf & ->)|(legs & s1 & r1 & Hf & _)].
  - rewrite fetch_legs_eq, Hd in Hf.
    destruct (_amadeus_token s) as [[token|e0] s0] eqn:E0;
      pose proof (_amadeus_token_log _ _ _ E0) as L0;
      injection Hf as <- <-; split; eauto.
  - rewrite fetch_legs_eq, Hd in Hf.
    destruct (_amadeus_token s) as [[token|e0] s0]; discriminate.
Qed.

(** X10. A return date that [strptime] does not accept is found only
    after the outbound search was sent and answered: with a token and an
    outbound leg, the invocation raises [ValueError] in the state that the
    outbound search left, having sent the token request and that search,
    and no request for the return leg or for a rate. *)
Theorem invalid_return_date
    origin destination departure_date return_date s token s1 dt1 out s2 :
  PyDate.strptime return_date = None ->
  PyDate.strptime departure_date = Some dt1 ->
  _amadeus_token s = (Ok token, s1) ->
  _search_leg token origin destination (PyDate.strftime pad_year dt1) s1
    = (Ok out, s2) ->
  _run origin destination departure_date return_date s = (Raise ValueError, s2)
  /\ sent s2
     = sent s ++ [ token_request;
                   search_request token origin destination
                     (PyDate.strftime pad_year dt1) ].
Proof.
  intros Hret Hdep Ht Hs. split.
  - unfold _run. apply bind_raise.
    now rewrite fetch_legs_eq, Ht, Hdep, Hs, Hret.
  - rewrite (_search_leg_log _ _ _ _ _ _ _ Hs), (_amadeus_token_log _ _ _ Ht).
    now rewrite <- app_assoc.
Qed.

(** X12. The outbound leg of the result does not depend on the offers of
    the return leg: from the same state, the loops give the same outbound
    leg whatever the return offers are. *)
Theorem outbound_leg_independent_of_return
    out inb inb' s rates result s' rates' result' s'' :
  normalize_and_rank [("outbound", out); ("return", inb)] s
    = (Ok (rates, result), s') ->
  normalize_and_rank [("outbound", out); ("return", inb')] s
    = (Ok (rates', result'), s'') ->
  result !! "outbound" = result' !! "outbound".
Proof.
  unfold normalize_and_rank. cbn [for_each]. intros H H'.
  apply bind_ok_inv in H as ([rates1 result1] & s1 & H1 & H).
  apply bind_ok_inv in H' as ([rates1' result1'] & s1' & H1' & H').
  rewrite H1 in H1'. injection H1' as <- <- <-.
  apply bind_ok_inv in H as ([rates2 result2] & s2 & H2 & H).
  apply bind_ok_inv in H' as ([rates2' result2'] & s2' & H2' & H').
  apply ret_inv in H as [H _]. injection H as _ <-.
  apply ret_inv in H' as [H' _]. injection H' as _ <-.
  apply leg_body_ok in H1 as (items & _ & -> & _); [|reflexivity].
  apply leg_body_ok in H2 as (items2 & _ & -> & _); [|reflexivity].
  apply leg_body_ok in H2' as (items2' & _ & -> & _); [|reflexivity].
  now rewrite !lookup_insert_ne by done.
Qed.

(** X13. In a leg whose prices are numbers, the first [k] elements are
    the [k] cheapest, for every [k]: none of them costs more than any of
    the elements after them. *)
Theorem first_elements_are_the_cheapest
    origin destination departure_date return_date w legs s1 result s' :
  fetch_legs origin destination departure_date return_date (start w) = (Ok legs, s1) ->
  _run origin destination departure_date return_date (start w) = (Ok result, s') ->
  forall leg offers l,
  (leg, offers) ∈ legs ->
  result !! leg = Some l ->
  no_nan_price l ->
  forall k a b, a ∈ take k l -> b ∈ drop k l -> price_le a b.
Proof.
  intros Hf Hr leg offers l Hin Hl Hnan.
  destruct (_run_ok _ _ _ _ _ _ _ _ _ Hf Hr) as (rates & _ & Hlegs).
  destruct (Hlegs leg offers Hin) as (items & _ & Hl').
  rewrite Hl in Hl'. injection Hl' as ->.
  assert (no_nan_price items) as Hitems.
  { unfold no_nan_price in *. now rewrite <- (price_sort_perm items). }
  apply strongly_sorted_split.
  exact (PySortFacts.sort_strongly_sorted price_brl PyFloat.ltb PyFloat.leb
           (fun k => PyFloat.is_nan k = false)
           PyFloatFacts.ltb_leb PyFloatFacts.leb_total PyFloatFacts.leb_trans
           items Hitems).
Qed.

End RunProperties.

(** ** Examples for the further properties *)

(** X2, witness: the 29th of February of 2024, the month without its
    leading zero. *)
Lemma to_iso_of_calendar_date_witness :
  _to_iso (Wd := normal) "29/2/2024" (init normal) = (Ok "2024-02-29", init normal).
Proof.
  apply (to_iso_of_calendar_date (Wd := normal) 2024 2 29 "29" "2" (init normal)).
  - reflexivity.
  - right. reflexivity.
  - right. reflexivity.
  - right. lia.
Defined.

(** X3, witness: the departure date of the examples. *)
Lemma to_iso_rejects_iso_dates_witness :
  _to_iso (Wd := normal) "2025-12-10" (init normal) = (Raise ValueError, init normal).
Proof.
  apply (to_iso_rejects_iso_dates (Wd := normal) "10/12/2025" (init normal)).
  reflexivity.
Defined.

(** X5, witness. The five requests of the invocation in the world
    [normal]: the token, two searches, the rates of USD and EUR. *)
Lemma requests_in_three_groups_witness :
  length (searches (sent (snd (go normal)))) = 2%nat
  /\ rate_lookups (sent (snd (go normal))) = ["USD"; "EUR"]
  /\ sent (snd (go normal))
     = token_request (Wd := normal) :: searches (sent (snd (go normal)))
       ++ map (rate_request (Wd := normal)) (rate_lookups (sent (snd (go normal)))).
Proof.
  split; [vm_compute; reflexivity|]. split; [vm_compute; reflexivity|].
  apply (requests_in_three_groups (Wd := normal)
           "GRU" "JFK" "10/12/2025" "20/12/2025" 0%nat (fst (go normal))).
  vm_compute; reflexivity.
Defined.

(** X6, witness. In the world [normal] the currencies of the six offers
    are USD, EUR, USD, USD, EUR, USD: two requests, USD and then EUR. *)
Lemma rates_requested_by_first_appearance_witness :
  first_seen (currencies [("outbound", three_offers); ("return", tied_offers)])
  = ["USD"; "EUR"]
  /\ rate_lookups (sent (snd (go normal)))
       `prefix_of` first_seen
         (currencies [("outbound", three_offers); ("return", tied_offers)])
  /\ (forall result, fst (go normal) = Ok result ->
        rate_lookups (sent (snd (go normal)))
        = first_seen
            (currencies [("outbound", three_offers); ("return", tied_offers)])).
Proof.
  split; [vm_compute; reflexivity|].
  apply (rates_requested_by_first_appearance (Wd := normal)
           "GRU" "JFK" "10/12/2025" "20/12/2025" 0%nat
           [("outbound", three_offers); ("return", tied_offers)]
           (snd (legs_of normal)) (fst (go normal)) (snd (go normal))).
  - vm_compute; reflexivity.
  - vm_compute; reflexivity.
Defined.

(** X7, witness: the result in the world [with_refund], whose return leg
    is empty. *)
Lemma result_has_the_two_legs_witness :
  returned (go with_refund) !! "return" = Some []
  /\ forall k, is_Some (returned (go with_refund) !! k)
               <-> k = "outbound" \/ k = "return".
Proof.
  split; [vm_compute; reflexivity|].
  apply (result_has_the_two_legs (Wd := with_refund)
           "GRU" "JFK" "10/12/2025" "20/12/2025" (init with_refund)
           (returned (go with_refund)) (snd (go with_refund))).
  vm_compute; reflexivity.
Defined.

(** X8, witness. The outbound offers of the world [normal] have 9, 4 and
    7 seats; the leg, by price, lists 4, 7 and 9. *)
Lemma seats_of_the_offer_witness :
  (map seats_remaining <$> returned (go normal) !! "outbound") = Some [4; 7; 9]
  /\ exists items l,
       returned (go normal) !! "outbound" = Some l
       /\ ranked items l
       /\ Forall2 (fun o n => seats_remaining n = numberOfBookableSeats o)
            three_offers items.
Proof.
  split; [vm_compute; reflexivity|].
  apply (seats_of_the_offer (Wd := normal)
           "GRU" "JFK" "10/12/2025" "20/12/2025" 0%nat
           [("outbound", three_offers); ("return", tied_offers)]
           (snd (legs_of normal)) (returned (go normal)) (snd (go normal))
           ltac:(vm_compute; reflexivity) ltac:(vm_compute; reflexivity)
           "outbound" three_offers).
  apply list_elem_of_here.
Defined.

Local Abbreviation iso_trip :=
  (_run (Wd := normal) "GRU" "JFK" "2025-12-10" "20/12/2025" (init normal)).

(** X9, witness: the departure date in ISO form. *)
Lemma invalid_departure_date_witness :
  sent (snd iso_trip) = [token_request (Wd := normal)]
  /\ ((exists e, _amadeus_token (Wd := normal) (init normal) = (Raise e, snd iso_trip)
                 /\ fst iso_trip = Raise e)
      \/ (exists token,
            _amadeus_token (Wd := normal) (init normal) = (Ok token, snd iso_trip)
            /\ fst iso_trip = Raise ValueError)).
Proof.
  apply (invalid_departure_date (Wd := normal)
           "GRU" "JFK" "2025-12-10" "20/12/2025" (init normal)
           (fst iso_trip) (snd iso_trip)).
  - vm_compute; reflexivity.
  - vm_compute; reflexivity.
Defined.

Local Abbreviation after_token := (snd (_amadeus_token (Wd := normal) (init normal))).
Local Abbreviation after_outbound :=
  (snd (_search_leg (Wd := normal) "T0" "GRU" "JFK" "2025-12-10" after_token)).

(** X10, witness: a return on the 31st of November. *)
Lemma invalid_return_date_witness :
  _run (Wd := normal) "GRU" "JFK" "10/12/2025" "31/11/2025" (init normal)
  = (Raise ValueError, after_outbound)
  /\ sent after_outbound
     = [ token_request (Wd := normal);
         search_request "T0" "GRU" "JFK" "2025-12-10" ].
Proof.
  apply (invalid_return_date (Wd := normal)
           "GRU" "JFK" "10/12/2025" "31/11/2025" (init normal) "T0" after_token
           (PyDate.mkDate 2025 12 10) three_offers after_outbound).
  - vm_compute; reflexivity.
  - vm_compute; reflexivity.
  - vm_compute; reflexivity.
  - vm_compute; reflexivity.
Defined.

Local Abbreviation loops_on inb :=
  (normalize_and_rank (Wd := normal)
     [("outbound", three_offers); ("return", inb)] (snd (legs_of normal))).
Local Abbreviation vars_of x :=
  (match fst x with Ok v => v | Raise _ => (∅, ∅) end).

(** X12, witness. The outbound leg of the world [normal] is the same
    when the return leg has no offer. *)
Lemma outbound_leg_independent_of_return_witness :
  (vars_of (loops_on tied_offers)).2 !! "outbound"
  = (vars_of (loops_on [])).2 !! "outbound".
Proof.
  apply (outbound_leg_independent_of_return (Wd := normal)
           three_offers tied_offers [] (snd (legs_of normal))
           (vars_of (loops_on tied_offers)).1 (vars_of (loops_on tied_offers)).2
           (snd (loops_on tied_offers))
           (vars_of (loops_on [])).1 (vars_of (loops_on [])).2 (snd (loops_on []))).
  - vm_compute; reflexivity.
  - vm_compute; reflexivity.
Defined.

(** X13, witness. The outbound leg of the world [normal] costs 825.00,
    900.00 and 1000.00. *)
Lemma first_elements_are_the_cheapest_witness :
  exists l,
    returned (go normal) !! "outbound" = Some l
    /\ forall k a b, a ∈ take k l -> b ∈ drop k l -> price_le a b.
Proof.
  eexists. split; [vm_compute; reflexivity|].
  apply (first_elements_are_the_cheapest (Wd := normal)
           "GRU" "JFK" "10/12/2025" "20/12/2025" 0%nat
           [("outbound", three_offers); ("return", tied_offers)]
           (snd (legs_of normal)) (returned (go normal)) (snd (go normal))
           ltac:(vm_compute; reflexivity) ltac:(vm_compute; reflexivity)
           "outbound" three_offers).
  - apply list_elem_of_here.
  - vm_compute; reflexivity.
  - repeat constructor.
Defined.
